(** * ham-quick-guides: the guide placement procedure of the GIMP 3.0 plug-in

    A shallow embedding of [run_quick_guides] from
    [GIMP3.0/ham-quick-guides.py].  The host image is an explicit state
    (its guide list, the trace of host calls made on it, and the host's own
    decision to make an insertion fail); Python's exceptions are an error
    result threaded through that state; Python's [float] is IEEE-754
    binary64 as specified by the standard library's [SpecFloat]. *)

From Stdlib Require Import ZArith List Lia Bool Sorted.
From Stdlib Require Import Floats.SpecFloat.
From Stdlib Require String.
Import String.StringSyntax.
Import ListNotations.
Local Open Scope Z_scope.

(** ** Python numbers *)

(** Python's [float] is binary64: 53 bits of precision, infinities at 2^1024. *)
Definition prec : Z := 53.
Definition emax : Z := 1024.

(** [float(n)] for an integer [n]: exact when [|n| < 2^53]. *)
Definition float_of_int (n : Z) : spec_float :=
  binary_normalize prec emax n 0 false.

(** [a / b] on two integers: true division. Both operands are below 2^53
    here (a [gint] dimension and a split count), so they convert exactly and
    the quotient is the binary64 division, rounded to nearest even; a zero
    divisor raises [ZeroDivisionError]. *)
Definition truediv (a b : Z) : option spec_float :=
  if b =? 0 then None
  else Some (SFdiv prec emax (float_of_int a) (float_of_int b)).

(** [x * n] for a float [x] and an integer [n]: [n] is converted, then the
    product is rounded to nearest even. *)
Definition float_mul_int (x : spec_float) (n : Z) : spec_float :=
  SFmul prec emax x (float_of_int n).

(** [int(x)]: truncation toward zero; raises on infinities and NaN
    ([None]). *)
Definition int_of_float (x : spec_float) : option Z :=
  match x with
  | S754_zero _ => Some 0
  | S754_finite s m e =>
      let a := match e with
               | Zneg p => Z.shiftr (Zpos m) (Zpos p)
               | _ => Z.shiftl (Zpos m) e
               end in
      Some (if s then - a else a)
  | S754_infinity _ | S754_nan => None
  end.

(** [range(n)] *)
Definition range (n : Z) : list Z := map Z.of_nat (seq 0 (Z.to_nat n)).

(** [Gimp.Image.get_width] and [get_height] return a C [gint]. *)
Definition G_MAXINT : Z := 2147483647.

(** ** The host *)

Inductive Guide : Type :=
| VGuide (x : Z)
| HGuide (y : Z).

Definition is_vguide (g : Guide) : bool :=
  match g with VGuide _ => true | HGuide _ => false end.

Definition is_hguide (g : Guide) : bool :=
  match g with VGuide _ => false | HGuide _ => true end.

Definition guide_position (g : Guide) : Z :=
  match g with VGuide x => x | HGuide y => y end.

(** The calls the procedure makes on the image. An insertion the host
    refuses is recorded as [CallAddFailed]. *)
Inductive HostCall : Type :=
| CallUndoGroupStart
| CallUndoGroupEnd
| CallAdd (g : Guide)
| CallAddFailed (g : Guide).

(** The image object. [faults n] is the host's decision to make the
    insertion call number [n] on this image (counted from 0 over the image's
    life) raise; [attempts] counts the insertion calls made so far. *)
Record Image : Type := mkImage {
  width : Z;
  height : Z;
  guides : list Guide;
  trace : list HostCall;
  attempts : nat;
  faults : nat -> bool
}.

Inductive RunMode : Type := INTERACTIVE | NONINTERACTIVE | WITH_LAST_VALS.

Inductive PDBStatusType : Type :=
| EXECUTION_ERROR | CALLING_ERROR | PASS_THROUGH | SUCCESS | CANCEL.

(** The procedure's configuration object: [config.get_property]. *)
Record Config : Type := mkConfig {
  h_split : Z;
  v_split : Z;
  make_centre : bool;
  draw_borders : bool
}.

(** A [GLib.Error] as the arguments it was constructed with. *)
Record GError : Type := mkGError {
  error_message : option (list Byte.byte);
  error_domain : option (list Byte.byte);
  error_code : option Z
}.

(** [GLib.Error()] *)
Definition GLib_Error : GError := mkGError None None None.

Definition ReturnValues : Type := (PDBStatusType * GError)%type.

(** [procedure.new_return_values(status, error)] *)
Definition new_return_values (st : PDBStatusType) (err : GError) : ReturnValues :=
  (st, err).

(** ** Computations on the image that may raise *)

Inductive Outcome (A : Type) : Type :=
| Returned (a : A)
| Raised.
Arguments Returned {A} a.
Arguments Raised {A}.

Definition M (A : Type) : Type := Image -> Outcome A * Image.

Definition ret {A} (a : A) : M A := fun img => (Returned a, img).

Definition raise {A} : M A := fun img => (Raised, img).

Definition bind {A B} (c : M A) (k : A -> M B) : M B :=
  fun img =>
    match c img with
    | (Returned a, img') => k a img'
    | (Raised, img') => (Raised, img')
    end.

Notation "x <- c ;; k" := (bind c (fun x => k))
  (at level 61, c at next level, right associativity).
Notation "c ;;; k" := (bind c (fun _ => k))
  (at level 61, right associativity).

Definition of_option {A} (o : option A) : M A :=
  match o with Some a => ret a | None => raise end.

(** [if c: body] *)
Definition when (c : bool) (body : M unit) : M unit :=
  if c then body else ret tt.

(** [for i in l: body] *)
Fixpoint for_in {A} (l : list A) (body : A -> M unit) : M unit :=
  match l with
  | [] => ret tt
  | a :: l' => body a ;;; for_in l' body
  end.

Definition record_call (c : HostCall) (img : Image) : Image :=
  mkImage (width img) (height img) (guides img) (trace img ++ [c])
          (attempts img) (faults img).

(** [image.undo_group_start()]; the host's undo calls do not raise. *)
Definition undo_group_start (img : Image) : Image :=
  record_call CallUndoGroupStart img.

(** [image.undo_group_end()] *)
Definition undo_group_end (img : Image) : Image :=
  record_call CallUndoGroupEnd img.

(** One insertion call: the host either appends the guide or raises. *)
Definition add_guide (g : Guide) : M unit :=
  fun img =>
    if faults img (attempts img)
    then (Raised,
          mkImage (width img) (height img) (guides img)
                  (trace img ++ [CallAddFailed g]) (S (attempts img)) (faults img))
    else (Returned tt,
          mkImage (width img) (height img) (guides img ++ [g])
                  (trace img ++ [CallAdd g]) (S (attempts img)) (faults img)).

(** [image.add_vguide(pos)] *)
Definition add_vguide (pos : Z) : M unit := add_guide (VGuide pos).

(** [image.add_hguide(pos)] *)
Definition add_hguide (pos : Z) : M unit := add_guide (HGuide pos).

(** ** The procedure *)

(** [int((dim / split) * (i + 1))] *)
Definition guide_pos (dim split i : Z) : option Z :=
  match truediv dim split with
  | Some q => int_of_float (float_mul_int q (i + 1))
  | None => None
  end.

(** [int(dim / 2)] *)
Definition centre_pos (dim : Z) : option Z :=
  match truediv dim 2 with
  | Some q => int_of_float q
  | None => None
  end.

(** The body of the [try] block. *)
Definition add_all_guides (image_width image_height : Z) (config : Config) : M unit :=
  when (v_split config >? 1)
    (for_in (range (v_split config - 1)) (fun i =>
       pos <- of_option (guide_pos image_width (v_split config) i) ;;
       add_vguide pos)) ;;;
  when (h_split config >? 1)
    (for_in (range (h_split config - 1)) (fun i =>
       pos <- of_option (guide_pos image_height (h_split config) i) ;;
       add_hguide pos)) ;;;
  when (make_centre config)
    (cx <- of_option (centre_pos image_width) ;;
     add_vguide cx ;;;
     cy <- of_option (centre_pos image_height) ;;
     add_hguide cy) ;;;
  when (draw_borders config)
    (add_vguide 0 ;;;
     add_hguide 0 ;;;
     add_vguide image_width ;;;
     add_hguide image_height).

(** The part of [run_quick_guides] that runs once an image is known to be
    present, lines 53 to 89: the undo group, the [try] block, its
    [except Exception] handler and the normal exit. *)
Definition run_on_image (config : Config) (img : Image) : ReturnValues * Image :=
  let image_width := width img in
  let image_height := height img in
  let img := undo_group_start img in
  match add_all_guides image_width image_height config img with
  | (Raised, img) =>
      let img := undo_group_end img in
      (new_return_values EXECUTION_ERROR GLib_Error, img)
  | (Returned _, img) =>
      let img := undo_group_end img in
      (new_return_values SUCCESS GLib_Error, img)
  end.

(** Lines 33 to 42: in interactive mode the host's modal dialog runs on the
    configuration. [dialog] is that dialog: it returns whether the user
    confirmed, and the configuration as the user left it. [None] is the
    early [CANCEL] return. *)
Definition show_dialog (run_mode : RunMode) (config : Config)
    (dialog : Config -> bool * Config) : option Config :=
  match run_mode with
  | INTERACTIVE =>
      let '(confirmed, config') := dialog config in
      if confirmed then Some config' else None
  | _ => Some config
  end.

(** [run_quick_guides(procedure, run_mode, image, drawables, config, data)]:
    the returned values and the image (if any) afterwards. *)
Definition run_quick_guides
    (run_mode : RunMode) (image : option Image) (config : Config)
    (dialog : Config -> bool * Config) : ReturnValues * option Image :=
  match show_dialog run_mode config dialog with
  | None => (new_return_values CANCEL GLib_Error, image)
  | Some config =>
      match image with
      | None => (new_return_values CALLING_ERROR GLib_Error, None)
      | Some img =>
          let '(r, img') := run_on_image config img in (r, Some img')
      end
  end.

(** ** Vocabulary of the statements *)

(** The centre lines and the border of a [W] by [H] canvas. *)
Definition centre_guides (W H : Z) : list Guide :=
  [VGuide (W / 2); HGuide (H / 2)].

Definition border_guides (W H : Z) : list Guide :=
  [VGuide 0; HGuide 0; VGuide W; HGuide H].

(** [ps] are the positions the split loop computes for [split] bands over
    [dim]: one per [k = 1 .. split - 1], the value of
    [int((dim / split) * k)]. *)
Definition split_positions (dim split : Z) (ps : list Z) : Prop :=
  length ps = Z.to_nat (split - 1)
  /\ forall k, 1 <= k < split ->
       guide_pos dim split (k - 1) = Some (nth (Z.to_nat (k - 1)) ps 0).

(** An image the host can hand over: both sides positive [gint]s. *)
Definition well_formed (img : Image) : Prop :=
  0 < width img <= G_MAXINT /\ 0 < height img <= G_MAXINT.

(** The ranges the host enforces on the two split parameters. *)
Definition in_range (config : Config) : Prop :=
  1 <= h_split config <= 100 /\ 1 <= v_split config <= 100.

(** The guide insertions of the [try] block in program order, each with the
    position computation that precedes it ([None] when that raises). *)
Definition split_plan (mk : Z -> Guide) (dim split : Z) : list (option Guide) :=
  if split >? 1
  then map (fun i => option_map mk (guide_pos dim split i)) (range (split - 1))
  else [].

Definition plan (W H : Z) (config : Config) : list (option Guide) :=
  split_plan VGuide W (v_split config)
  ++ split_plan HGuide H (h_split config)
  ++ (if make_centre config
      then [option_map VGuide (centre_pos W); option_map HGuide (centre_pos H)]
      else [])
  ++ (if draw_borders config
      then [Some (VGuide 0); Some (HGuide 0); Some (VGuide W); Some (HGuide H)]
      else []).

Definition step (og : option Guide) : M unit :=
  g <- of_option og ;; add_guide g.

Definition exec (l : list (option Guide)) : M unit := for_in l step.

(** [img'] is [img] after the insertions [gs] succeeded, followed by the
    calls [fl] that added nothing. *)
Definition extends (img img' : Image) (gs : list Guide) (fl : list HostCall) : Prop :=
  width img' = width img /\ height img' = height img /\ faults img' = faults img
  /\ guides img' = guides img ++ gs
  /\ trace img' = trace img ++ map CallAdd gs ++ fl
  /\ attempts img' = (attempts img + length gs + length fl)%nat.

Definition guide_in_canvas (W H : Z) (g : Guide) : Prop :=
  match g with
  | VGuide x => 0 <= x <= W
  | HGuide y => 0 <= y <= H
  end.

Definition is_insertion (c : HostCall) : Prop :=
  match c with
  | CallAdd _ | CallAddFailed _ => True
  | CallUndoGroupStart | CallUndoGroupEnd => False
  end.

(** The guide a call tried to insert. *)
Definition call_guide (c : HostCall) : option Guide :=
  match c with
  | CallAdd g | CallAddFailed g => Some g
  | CallUndoGroupStart | CallUndoGroupEnd => None
  end.

(** The positions [k * dim / split] rounded down, for [k = 1 .. split - 1]. *)
Definition floor_positions (dim split : Z) : list Z :=
  map (fun k => dim * k / split) (map Z.of_nat (seq 1 (Z.to_nat (split - 1)))).

(** What the split loop guarantees of its positions [ps]: there are
    [split - 1] of them; the [k]-th is the value of [int((dim / split) * k)],
    which is [floor(dim * k / split)] or, only when [split] divides
    [dim * k], possibly one less; they never decrease, and they increase
    strictly when [split <= dim]. *)
Definition rounded_split_positions (dim split : Z) (ps : list Z) : Prop :=
  length ps = Z.to_nat (split - 1)
  /\ (forall k, 1 <= k < split ->
        guide_pos dim split (k - 1) = Some (nth (Z.to_nat (k - 1)) ps 0)
        /\ dim * k / split - 1 <= nth (Z.to_nat (k - 1)) ps 0 <= dim * k / split
        /\ ((dim * k) mod split <> 0 ->
            nth (Z.to_nat (k - 1)) ps 0 = dim * k / split))
  /\ (forall k k', 1 <= k -> k < k' -> k' < split ->
        nth (Z.to_nat (k - 1)) ps 0 <= nth (Z.to_nat (k' - 1)) ps 0
        /\ (split <= dim ->
            nth (Z.to_nat (k - 1)) ps 0 < nth (Z.to_nat (k' - 1)) ps 0)).

Definition image0 (W H : Z) : Image := mkImage W H [] [] 0 (fun _ => false).

Definition accept : Config -> bool * Config := fun c => (true, c).

Definition dismiss : Config -> bool * Config := fun c => (false, c).

(** ** Rounding: the state of [SpecFloat]'s shift-and-round

    [rec_ok N D mrs]: the record [mrs] (integer part, round bit, sticky bit)
    locates the exact value [N / D]. *)
Definition rec_ok (N D : Z) (mrs : shr_record) : Prop :=
  match shr_r mrs, shr_s mrs with
  | false, false => N = shr_m mrs * D
  | false, true => shr_m mrs * D < N /\ 2 * N < (2 * shr_m mrs + 1) * D
  | true, false => 2 * N = (2 * shr_m mrs + 1) * D
  | true, true => (2 * shr_m mrs + 1) * D < 2 * N /\ N < (shr_m mrs + 1) * D
  end.

(** ** Counting and listing the insertions *)

(** The guides of the insertions of a trace that succeeded, in call order. *)
Definition added_by (tr : list HostCall) : list Guide :=
  flat_map (fun c => match c with CallAdd g => [g] | _ => [] end) tr.

(** An insertion call, refused or not. *)
Definition insertion_call (c : HostCall) : bool :=
  match c with
  | CallAdd _ | CallAddFailed _ => true
  | CallUndoGroupStart | CallUndoGroupEnd => false
  end.

(** How many insertion calls a configuration asks for. *)
Definition planned_count (config : Config) : nat :=
  (Z.to_nat (v_split config - 1) + Z.to_nat (h_split config - 1)
   + (if make_centre config then 2 else 0)
   + (if draw_borders config then 4 else 0))%nat.

(** The guides of a complete run, given the split positions. *)
Definition planned_guides (W H : Z) (config : Config) (vs hs : list Z) : list Guide :=
  map VGuide vs ++ map HGuide hs
  ++ (if make_centre config then centre_guides W H else [])
  ++ (if draw_borders config then border_guides W H else []).

(** ** Registration: the [HamQuickGuides] plug-in class *)

Inductive PDBProcType : Type := INTERNAL | PLUGIN | PERSISTENT | TEMPORARY.

Inductive ProcedureSensitivityMask : Type :=
| DRAWABLE | DRAWABLES | NO_DRAWABLES | NO_IMAGE | ALWAYS.

Inductive ParamFlags : Type := READABLE | WRITABLE | READWRITE.

(** An argument as [add_int_argument] and [add_boolean_argument] declare it:
    name, nick, blurb, then bounds and default, then flags. *)
Inductive ParamSpec : Type :=
| IntArgument (name nick blurb : String.string) (min max default : Z) (flags : ParamFlags)
| BooleanArgument (name nick blurb : String.string) (default : bool) (flags : ParamFlags).

(** The [Gimp.ImageProcedure] object under construction. *)
Record Procedure : Type := mkProcedure {
  procedure_name : String.string;
  procedure_type : PDBProcType;
  image_types : option String.string;
  sensitivity_mask : option ProcedureSensitivityMask;
  menu_label : option String.string;
  menu_paths : list String.string;
  documentation : option (String.string * String.string * String.string);
  attribution : option (String.string * String.string * String.string);
  arguments : list ParamSpec
}.

(** [Gimp.ImageProcedure.new(self, name, proc_type, run_func, None)] *)
Definition ImageProcedure_new (name : String.string) (proc_type : PDBProcType) : Procedure :=
  mkProcedure name proc_type None None None [] None None [].

Definition set_image_types (types : String.string) (p : Procedure) : Procedure :=
  mkProcedure (procedure_name p) (procedure_type p) (Some types) (sensitivity_mask p)
    (menu_label p) (menu_paths p) (documentation p) (attribution p) (arguments p).

Definition set_sensitivity_mask (m : ProcedureSensitivityMask) (p : Procedure) : Procedure :=
  mkProcedure (procedure_name p) (procedure_type p) (image_types p) (Some m)
    (menu_label p) (menu_paths p) (documentation p) (attribution p) (arguments p).

Definition set_menu_label (l : String.string) (p : Procedure) : Procedure :=
  mkProcedure (procedure_name p) (procedure_type p) (image_types p) (sensitivity_mask p)
    (Some l) (menu_paths p) (documentation p) (attribution p) (arguments p).

Definition add_menu_path (path : String.string) (p : Procedure) : Procedure :=
  mkProcedure (procedure_name p) (procedure_type p) (image_types p) (sensitivity_mask p)
    (menu_label p) (menu_paths p ++ [path]) (documentation p) (attribution p) (arguments p).

Definition set_documentation (blurb help help_id : String.string) (p : Procedure) : Procedure :=
  mkProcedure (procedure_name p) (procedure_type p) (image_types p) (sensitivity_mask p)
    (menu_label p) (menu_paths p) (Some (blurb, help, help_id)) (attribution p) (arguments p).

Definition set_attribution (authors copyright date : String.string) (p : Procedure) : Procedure :=
  mkProcedure (procedure_name p) (procedure_type p) (image_types p) (sensitivity_mask p)
    (menu_label p) (menu_paths p) (documentation p) (Some (authors, copyright, date))
    (arguments p).

Definition add_argument (a : ParamSpec) (p : Procedure) : Procedure :=
  mkProcedure (procedure_name p) (procedure_type p) (image_types p) (sensitivity_mask p)
    (menu_label p) (menu_paths p) (documentation p) (attribution p) (arguments p ++ [a]).

Definition add_int_argument (name nick blurb : String.string) (min max default : Z)
    (flags : ParamFlags) : Procedure -> Procedure :=
  add_argument (IntArgument name nick blurb min max default flags).

Definition add_boolean_argument (name nick blurb : String.string) (default : bool)
    (flags : ParamFlags) : Procedure -> Procedure :=
  add_argument (BooleanArgument name nick blurb default flags).

Local Open Scope string_scope.

(** [HamQuickGuides.do_set_i18n] *)
Definition do_set_i18n (procname : String.string) : bool * String.string * option String.string :=
  (true, "gimp30-python", None).

(** [HamQuickGuides.do_query_procedures] *)
Definition do_query_procedures : list String.string :=
  ["python-fu-ham-quick-guides"].

(** [HamQuickGuides.do_create_procedure] *)
Definition do_create_procedure (name : String.string) : Procedure :=
  let procedure := ImageProcedure_new name PLUGIN in
  let procedure := set_image_types "*" procedure in
  let procedure := set_sensitivity_mask ALWAYS procedure in
  let procedure := set_menu_label "Quick Guides..." procedure in
  let procedure := add_menu_path "<Image>/Image/Guides" procedure in
  let procedure :=
    set_documentation
      "Create guides for rule of thirds/fourths etc.."
      (String.append "Quickly adds horizontal and vertical guides to the image based "
         (String.append "on a specified number of splits. "
            "Can also add center and border guides."))
      name procedure in
  let procedure :=
    set_attribution
      "hamsolo474, Claude Code (Migration)"
      "hamsolo474, Claude Code (Migration)"
      "2022, 2025" procedure in
  let procedure :=
    add_int_argument "h-split" "Horizontal Splits"
      "Number of horizontal sections to create (e.g., 3 for thirds)"
      1 100 3 READWRITE procedure in
  let procedure :=
    add_int_argument "v-split" "Vertical Splits"
      "Number of vertical sections to create (e.g., 3 for thirds)"
      1 100 3 READWRITE procedure in
  let procedure :=
    add_boolean_argument "make-centre" "Draw centered guides"
      "Add guides at the horizontal and vertical center"
      true READWRITE procedure in
  let procedure :=
    add_boolean_argument "draw-borders" "Draw guides on canvas borders"
      "Add guides at the 0 and max width/height of the canvas"
      false READWRITE procedure in
  procedure.

(** ** The configuration object *)

Inductive Value : Type := VInt (n : Z) | VBool (b : bool).

(** The properties of a [Gimp.ProcedureConfig], by name. *)
Definition ProcedureConfig : Type := list (String.string * Value).

(** [config.get_property(name)]; [None] when there is no such property
    (PyGObject raises [TypeError]). *)
Fixpoint get_property (config : ProcedureConfig) (name : String.string) : option Value :=
  match config with
  | [] => None
  | (k, v) :: rest => if String.eqb k name then Some v else get_property rest name
  end.

(** Lines 45 to 48: the four reads, as the [Config] the rest of
    [run_quick_guides] works on. A property of the other kind than the one
    declared is outside what the host hands over ([None]). *)
Definition get_properties (config : ProcedureConfig) : option Config :=
  match get_property config "h-split", get_property config "v-split",
        get_property config "make-centre", get_property config "draw-borders" with
  | Some (VInt h), Some (VInt v), Some (VBool mc), Some (VBool db) =>
      Some (mkConfig h v mc db)
  | _, _, _, _ => None
  end.

Definition argument_name (a : ParamSpec) : String.string :=
  match a with
  | IntArgument name _ _ _ _ _ _ => name
  | BooleanArgument name _ _ _ _ => name
  end.

Definition argument_default (a : ParamSpec) : Value :=
  match a with
  | IntArgument _ _ _ _ _ default _ => VInt default
  | BooleanArgument _ _ _ default _ => VBool default
  end.

Local Close Scope string_scope.

(** A value the host accepts for an argument: of its kind, and for an
    integer within the declared bounds. *)
Definition accepts (a : ParamSpec) (v : Value) : bool :=
  match a, v with
  | IntArgument _ _ _ lo hi _ _, VInt n => (lo <=? n) && (n <=? hi)
  | BooleanArgument _ _ _ _ _, VBool _ => true
  | _, _ => false
  end.

(** The host's contract for the configuration it passes to the run
    function: every declared argument is a property holding an accepted
    value. *)
Definition conforms (p : Procedure) (config : ProcedureConfig) : Prop :=
  forall a, In a (arguments p) ->
    exists v, get_property config (argument_name a) = Some v /\ accepts a v = true.

(** The configuration the host creates before any value is set: each
    argument at its default. *)
Definition default_config (p : Procedure) : ProcedureConfig :=
  map (fun a => (argument_name a, argument_default a)) (arguments p).

(** * The procedure on the specification's examples *)

Example guide_pos_thirds :
  guide_pos 900 3 0 = Some 300 /\ guide_pos 900 3 1 = Some 600.
Proof. split; vm_compute; reflexivity. Qed.

Example guide_pos_rounds_below :
  guide_pos 2 98 48 = Some 0 /\ guide_pos 30 22 10 = Some 14.
Proof. split; vm_compute; reflexivity. Qed.

Example run_thirds_with_centre :
  run_quick_guides NONINTERACTIVE (Some (image0 900 600)) (mkConfig 3 3 true false) accept
  = ((SUCCESS, GLib_Error),
     Some (mkImage 900 600
             [VGuide 300; VGuide 600; HGuide 200; HGuide 400; VGuide 450; HGuide 300]
             [CallUndoGroupStart; CallAdd (VGuide 300); CallAdd (VGuide 600);
              CallAdd (HGuide 200); CallAdd (HGuide 400); CallAdd (VGuide 450);
              CallAdd (HGuide 300); CallUndoGroupEnd]
             6 (fun _ => false))).
Proof. vm_compute; reflexivity. Qed.

Example run_borders_only :
  option_map guides
    (snd (run_quick_guides NONINTERACTIVE (Some (image0 800 400))
            (mkConfig 1 1 false true) accept))
  = Some [VGuide 0; HGuide 0; VGuide 800; HGuide 400].
Proof. vm_compute; reflexivity. Qed.

(** * Binary64 rounding *)

Lemma digits2_pos_bounds p :
  2 ^ (Zpos (digits2_pos p) - 1) <= Zpos p < 2 ^ Zpos (digits2_pos p).
Proof.
  induction p as [p IH|p IH|]; cbn [digits2_pos].
  - rewrite Pos2Z.inj_succ, Z.pow_succ_r by lia.
    replace (Z.succ (Zpos (digits2_pos p)) - 1) with (Z.succ (Zpos (digits2_pos p) - 1)) by lia.
    rewrite Z.pow_succ_r by lia. lia.
  - rewrite Pos2Z.inj_succ, Z.pow_succ_r by lia.
    replace (Z.succ (Zpos (digits2_pos p)) - 1) with (Z.succ (Zpos (digits2_pos p) - 1)) by lia.
    rewrite Z.pow_succ_r by lia. lia.
  - cbn. lia.
Qed.

Lemma Zdigits2_log2 m : 0 < m -> Zdigits2 m = Z.log2 m + 1.
Proof.
  intros Hm. destruct m as [|p|p]; try lia. cbn [Zdigits2].
  pose proof (digits2_pos_bounds p) as [H1 H2].
  assert (Z.log2 (Zpos p) = Zpos (digits2_pos p) - 1); [|lia].
  apply Z.log2_unique; [lia|]. split; [exact H1|].
  replace (Z.succ (Zpos (digits2_pos p) - 1)) with (Zpos (digits2_pos p)) by lia. exact H2.
Qed.

Lemma shr_1_ok N D mrs :
  0 <= shr_m mrs -> 0 < D -> rec_ok N D mrs ->
  rec_ok N (2 * D) (shr_1 mrs) /\ shr_m (shr_1 mrs) = shr_m mrs / 2.
Proof.
  destruct mrs as [m r s]. unfold rec_ok. cbn [shr_m shr_r shr_s].
  intros Hm HD H.
  destruct m as [|[p|p|]|p]; try lia;
    destruct r, s; cbn [shr_1 shr_m shr_r shr_s orb];
    (split; [try nia|]);
    try reflexivity;
    try (apply Z.div_unique with (r := 1); lia);
    try (apply Z.div_unique with (r := 0); lia).
Qed.

Lemma pow2_pos n : 0 <= n -> 0 < 2 ^ n.
Proof. intros. apply Z.pow_pos_nonneg; lia. Qed.

Lemma shr_iter_ok N p : forall D mrs,
  0 <= shr_m mrs -> 0 < D -> rec_ok N D mrs ->
  rec_ok N (2 ^ Zpos p * D) (iter_pos shr_1 p mrs)
  /\ shr_m (iter_pos shr_1 p mrs) = shr_m mrs / 2 ^ Zpos p.
Proof.
  assert (P : 0 < 2 ^ Zpos p) by (apply pow2_pos; lia).
  induction p as [p IH|p IH|]; intros D mrs Hm HD H; cbn [iter_pos].
  - assert (P' : 0 < 2 ^ Zpos p) by (apply pow2_pos; lia).
    specialize (IH P').
    destruct (shr_1_ok N D mrs Hm HD H) as [H1 E1].
    assert (Hm1 : 0 <= shr_m (shr_1 mrs)) by (rewrite E1; apply Z.div_pos; lia).
    destruct (IH (2 * D) _ Hm1 ltac:(lia) H1) as [H2 E2].
    assert (Hm2 : 0 <= shr_m (iter_pos shr_1 p (shr_1 mrs))) by (rewrite E2; apply Z.div_pos; lia).
    assert (HD2 : 0 < 2 ^ Zpos p * (2 * D)) by nia.
    destruct (IH _ _ Hm2 HD2 H2) as [H3 E3].
    assert (Epow : 2 ^ Zpos p~1 = 2 ^ Zpos p * (2 ^ Zpos p * 2)).
    { replace (Zpos p~1) with (Zpos p + (Zpos p + 1)) by lia.
      rewrite !Z.pow_add_r, Z.pow_1_r by lia. reflexivity. }
    rewrite Epow. split.
    + replace (2 ^ Zpos p * (2 ^ Zpos p * 2) * D) with (2 ^ Zpos p * (2 ^ Zpos p * (2 * D))) by lia. exact H3.
    + rewrite E3, E2, E1. rewrite !Z.div_div by lia. f_equal. lia.
  - assert (P' : 0 < 2 ^ Zpos p) by (apply pow2_pos; lia).
    specialize (IH P').
    destruct (IH D _ Hm HD H) as [H2 E2].
    assert (Hm2 : 0 <= shr_m (iter_pos shr_1 p mrs)) by (rewrite E2; apply Z.div_pos; lia).
    assert (HD2 : 0 < 2 ^ Zpos p * D) by nia.
    destruct (IH _ _ Hm2 HD2 H2) as [H3 E3].
    assert (Epow : 2 ^ Zpos p~0 = 2 ^ Zpos p * 2 ^ Zpos p).
    { replace (Zpos p~0) with (Zpos p + Zpos p) by lia.
      rewrite Z.pow_add_r by lia. reflexivity. }
    rewrite Epow. split.
    + replace (2 ^ Zpos p * 2 ^ Zpos p * D) with (2 ^ Zpos p * (2 ^ Zpos p * D)) by lia. exact H3.
    + rewrite E3, E2. rewrite !Z.div_div by lia. f_equal.
  - replace (2 ^ 1) with 2 by reflexivity. apply shr_1_ok; assumption.
Qed.

Lemma shr_ok N D mrs e n :
  0 <= shr_m mrs -> 0 < D -> rec_ok N D mrs ->
  exists mrs', shr mrs e n = (mrs', e + Z.max 0 n)
    /\ rec_ok N (2 ^ Z.max 0 n * D) mrs'
    /\ shr_m mrs' = shr_m mrs / 2 ^ Z.max 0 n.
Proof.
  intros Hm HD H. destruct n as [|p|p]; cbn [shr].
  - exists mrs. rewrite Z.max_id, Z.add_0_r, Z.pow_0_r, Z.mul_1_l, Z.div_1_r. auto.
  - exists (iter_pos shr_1 p mrs). rewrite Z.max_r by lia.
    destruct (shr_iter_ok N p D mrs Hm HD H). auto.
  - exists mrs. rewrite Z.max_l by lia.
    rewrite Z.add_0_r, Z.pow_0_r, Z.mul_1_l, Z.div_1_r. auto.
Qed.

Lemma fexp_eq x : fexp prec emax x = Z.max (x - 53) (-1074).
Proof. reflexivity. Qed.

Lemma shr_fexp_spec m e lx N D :
  0 < m -> 0 < D -> rec_ok N D (shr_record_of_loc m lx) -> -1074 <= e ->
  exists mrs, shr_fexp prec emax m e lx = (mrs, e + Z.max 0 (Zdigits2 m - 53))
    /\ rec_ok N (2 ^ Z.max 0 (Zdigits2 m - 53) * D) mrs
    /\ shr_m mrs = m / 2 ^ Z.max 0 (Zdigits2 m - 53).
Proof.
  intros Hm HD H He. unfold shr_fexp. rewrite fexp_eq.
  assert (Em : shr_m (shr_record_of_loc m lx) = m) by (destruct lx as [|[]]; reflexivity).
  destruct (shr_ok N D (shr_record_of_loc m lx) e
              (Z.max (Zdigits2 m + e - 53) (-1074) - e)) as (mrs & E1 & E2 & E3);
    [rewrite Em; lia | assumption | assumption |].
  assert (Eg : Z.max 0 (Z.max (Zdigits2 m + e - 53) (-1074) - e) = Z.max 0 (Zdigits2 m - 53)) by lia.
  rewrite Eg in *. rewrite Em in E3. exists mrs. auto.
Qed.

Lemma round_nearest_even_ok N D mrs :
  0 < D -> rec_ok N D mrs ->
  let m2 := round_nearest_even (shr_m mrs) (loc_of_shr_record mrs) in
  (m2 = shr_m mrs \/ m2 = shr_m mrs + 1)
  /\ 2 * Z.abs (m2 * D - N) <= D
  /\ (2 * Z.abs (m2 * D - N) = D -> Z.even m2 = true)
  /\ (N = shr_m mrs * D -> m2 = shr_m mrs).
Proof.
  destruct mrs as [m r s]. unfold rec_ok. cbn [shr_m shr_r shr_s].
  intros HD H. destruct r, s; cbn [loc_of_shr_record round_nearest_even].
  - repeat split; try lia; try nia.
  - destruct (Z.even m) eqn:Ev.
    + repeat split; try lia. auto.
    + repeat split; try lia. intros _. rewrite Z.even_add, Ev. reflexivity.
  - repeat split; try lia; try nia.
  - repeat split; try lia.
Qed.

Lemma div_pow2_bounds m d g :
  0 <= g -> 0 <= d -> 2 ^ (d + g) <= m < 2 ^ (d + g + 1) ->
  2 ^ d <= m / 2 ^ g < 2 ^ (d + 1).
Proof.
  intros Hg Hd [H1 H2]. pose proof (pow2_pos g Hg) as P.
  rewrite Z.pow_add_r in H1 by lia.
  replace (d + g + 1) with ((d + 1) + g) in H2 by lia.
  rewrite Z.pow_add_r in H2 by lia.
  split.
  - apply Z.div_le_lower_bound; lia.
  - apply Z.div_lt_upper_bound; lia.
Qed.

Lemma binary_round_aux_spec m e lx N D :
  0 < m -> 0 < D -> rec_ok N D (shr_record_of_loc m lx) ->
  53 <= Zdigits2 m -> -1074 <= e -> e + (Zdigits2 m - 53) + 1 <= 971 ->
  let g := Zdigits2 m - 53 in
  exists m' e',
    binary_round_aux prec emax false m e lx = S754_finite false m' e'
    /\ 2 ^ 52 <= Zpos m' < 2 ^ 53
    /\ e + g <= e' <= e + g + 1
    /\ 2 * Z.abs (Zpos m' * 2 ^ (e' - (e + g)) * (2 ^ g * D) - N) <= 2 ^ g * D
    /\ (2 * Z.abs (Zpos m' * 2 ^ (e' - (e + g)) * (2 ^ g * D) - N) = 2 ^ g * D ->
        Z.even (Zpos m' * 2 ^ (e' - (e + g))) = true).
Proof.
  intros Hm HD H Hd He Hmax g.
  assert (Hg : 0 <= g) by (unfold g; lia).
  destruct (shr_fexp_spec m e lx N D Hm HD H He) as (mrs1 & E1 & R1 & M1).
  replace (Z.max 0 (Zdigits2 m - 53)) with g in * by (unfold g; lia).
  pose proof (pow2_pos g Hg) as Pg.
  assert (B1 : 2 ^ 52 <= shr_m mrs1 < 2 ^ (52 + 1)).
  { rewrite M1. apply div_pow2_bounds; try lia.
    pose proof (Zdigits2_log2 m Hm) as Elog.
    pose proof (Z.log2_spec m Hm) as L.
    replace (52 + g) with (Z.log2 m) by (unfold g; lia).
    replace (Z.log2 m + 1) with (Z.succ (Z.log2 m)) by lia. exact L. }
  destruct (round_nearest_even_ok N (2 ^ g * D) mrs1 ltac:(nia) R1) as (Hm2 & Hb & Ht & _).
  set (m2 := round_nearest_even (shr_m mrs1) (loc_of_shr_record mrs1)) in *.
  change (2 ^ (52 + 1)) with (2 ^ 53) in B1.
  assert (B2 : 2 ^ 52 <= m2 <= 2 ^ 53) by lia.
  assert (R2 : rec_ok m2 1 (shr_record_of_loc m2 loc_Exact))
    by (unfold rec_ok; cbn; lia).
  destruct (shr_fexp_spec m2 (e + g) loc_Exact m2 1 ltac:(lia) ltac:(lia) R2 ltac:(lia))
    as (mrs2 & E2 & _ & M2).
  unfold binary_round_aux. rewrite E1. fold m2. rewrite E2.
  assert (Hd2 : m2 < 2 ^ 53 /\ Zdigits2 m2 = 53 \/ m2 = 2 ^ 53 /\ Zdigits2 m2 = 54).
  { rewrite Zdigits2_log2 by lia.
    destruct (Z.eq_dec m2 (2 ^ 53)) as [->|Hne]; [right; split; reflexivity|left].
    split; [lia|]. assert (Z.log2 m2 = 52); [|lia].
    apply Z.log2_unique; [lia|]. change (Z.succ 52) with 53. lia. }
  destruct Hd2 as [[Hlt Ed]|[Eq Ed]]; rewrite Ed in *.
  - change (Z.max 0 (53 - 53)) with 0 in *.
    rewrite Z.pow_0_r, Z.div_1_r in M2. rewrite M2.
    destruct m2 as [|p2|p2] eqn:Em2; try lia.
    replace (e + g + 0 <=? emax - prec) with true
      by (symmetry; apply Z.leb_le; unfold emax, prec; lia).
    exists p2, (e + g + 0). split; [reflexivity|].
    replace (e + g + 0 - (e + g)) with 0 by lia. rewrite Z.pow_0_r, Z.mul_1_r.
    repeat split; try lia. exact Ht.
  - change (Z.max 0 (54 - 53)) with 1 in *.
    rewrite M2, Eq. change (2 ^ 53 / 2 ^ 1) with (Zpos (2 ^ 52)).
    replace (e + g + 1 <=? emax - prec) with true
      by (symmetry; apply Z.leb_le; unfold emax, prec; lia).
    exists (2 ^ 52)%positive, (e + g + 1). split; [reflexivity|].
    replace (e + g + 1 - (e + g)) with 1 by lia.
    change (Zpos (2 ^ 52) * 2 ^ 1) with (2 ^ 53). rewrite <- Eq.
    repeat split; try lia; try exact Ht.
Qed.

Lemma iter_xO p s : Zpos (Pos.iter xO p s) = Zpos p * 2 ^ Zpos s.
Proof.
  induction s as [|s IH] using Pos.peano_ind.
  - cbn [Pos.iter]. rewrite Z.pow_1_r. lia.
  - rewrite Pos.iter_succ, Pos2Z.inj_succ, Z.pow_succ_r by lia.
    rewrite Pos2Z.inj_xO, IH. lia.
Qed.

Lemma float_of_int_spec k :
  0 < k < 2 ^ 53 ->
  exists mk K,
    float_of_int k = S754_finite false mk (- K)
    /\ K = 52 - Z.log2 k
    /\ Zpos mk = k * 2 ^ K.
Proof.
  intros [Hk Hlt]. destruct k as [|p|p]; try lia.
  unfold float_of_int, binary_normalize, binary_round. rewrite fexp_eq.
  pose proof (Zdigits2_log2 (Zpos p) Hk) as Ed. cbn [Zdigits2] in Ed.
  assert (Hl : 0 <= Z.log2 (Zpos p) <= 52).
  { split; [apply Z.log2_nonneg|].
    assert (Z.log2 (Zpos p) < 53); [|lia]. apply Z.log2_lt_pow2; lia. }
  set (K := 52 - Z.log2 (Zpos p)).
  assert (Ef : Z.max (Zpos (digits2_pos p) + 0 - 53) (-1074) = - K) by (unfold K; lia).
  rewrite Ef.
  assert (exists mz, shl_align p 0 (- K) = (mz, - K) /\ Zpos mz = Zpos p * 2 ^ K)
    as (mz & Es & Emz).
  { unfold shl_align. destruct (- K - 0) as [|s|s] eqn:Eks; try lia.
    - exists p. replace K with 0 by lia. rewrite Z.pow_0_r. split; [reflexivity|lia].
    - exists (Pos.iter xO p s). split; [reflexivity|].
      rewrite iter_xO. f_equal. f_equal. lia. }
  rewrite Es.
  assert (PK : 0 < 2 ^ K) by (apply pow2_pos; unfold K; lia).
  assert (Hdz : Zdigits2 (Zpos mz) = 53).
  { rewrite Zdigits2_log2 by lia. rewrite Emz.
    rewrite Z.log2_mul_pow2 by (unfold K; lia). unfold K. lia. }
  destruct (binary_round_aux_spec (Zpos mz) (- K) loc_Exact (Zpos mz) 1)
    as (m' & e' & Er & Bm & Be & Hb & _); try lia.
  { unfold rec_ok; cbn; lia. }
  assert (Hlz : Z.log2 (Zpos mz) = 52)
    by (rewrite Zdigits2_log2 in Hdz by lia; lia).
  rewrite Er. rewrite Hdz in *.
  change (53 - 53) with 0 in *. rewrite Z.pow_0_r in Hb.
  assert (He' : e' = - K \/ e' = - K + 1) by lia.
  destruct He' as [->| ->].
  - replace (- K - (- K + 0)) with 0 in Hb by lia. rewrite Z.pow_0_r in Hb.
    assert (m' = mz) by lia. subst m'.
    exists mz, K. auto.
  - replace (- K + 1 - (- K + 0)) with 1 in Hb by lia. rewrite Z.pow_1_r in Hb.
    exfalso.
    pose proof (Z.log2_spec (Zpos mz) ltac:(lia)) as L. rewrite Hlz in L.
    change (2 ^ Z.succ 52) with (2 ^ 53) in L. lia.
Qed.

Lemma new_location_ok D q r :
  0 < D -> 0 <= r < D ->
  rec_ok (q * D + r) D (shr_record_of_loc q (new_location D r)).
Proof.
  intros HD Hr. unfold new_location.
  destruct (Z.even D) eqn:Ev.
  - unfold new_location_even. destruct (Z.eqb_spec r 0) as [->|Hne].
    + unfold rec_ok; cbn [shr_record_of_loc shr_m shr_r shr_s]; lia.
    + destruct (Z.compare_spec (2 * r) D); unfold rec_ok; cbn [shr_record_of_loc shr_m shr_r shr_s]; lia.
  - assert (Od : Z.odd D = true) by (rewrite <- Z.negb_even, Ev; reflexivity).
    apply Z.odd_spec in Od. destruct Od as [d Od].
    unfold new_location_odd. destruct (Z.eqb_spec r 0) as [->|Hne].
    + unfold rec_ok; cbn [shr_record_of_loc shr_m shr_r shr_s]; lia.
    + destruct (Z.compare_spec (2 * r + 1) D); unfold rec_ok; cbn [shr_record_of_loc shr_m shr_r shr_s]; lia.
Qed.

Lemma SFdiv_core_binary_53 m1 e1 m2 e2 :
  0 < m1 -> 0 < m2 -> Zdigits2 m1 = 53 -> Zdigits2 m2 = 53 -> -1021 <= e1 - e2 ->
  SFdiv_core_binary prec emax m1 e1 m2 e2 =
  (m1 * 2 ^ 53 / m2, e1 - e2 - 53, new_location m2 ((m1 * 2 ^ 53) mod m2)).
Proof.
  intros H1 H2 D1 D2 He. unfold SFdiv_core_binary. rewrite D1, D2, fexp_eq.
  replace (Z.min (Z.max (53 + e1 - (53 + e2) - 53) (-1074)) (e1 - e2))
    with (e1 - e2 - 53) by lia.
  replace (e1 - e2 - (e1 - e2 - 53)) with 53 by lia.
  cbv iota. rewrite Z.shiftl_mul_pow2 by lia.
  unfold Z.div, Z.modulo.
  destruct (Z.div_eucl (m1 * 2 ^ 53) m2) as [q r]. reflexivity.
Qed.

Lemma canonical_digits p K k :
  0 < k -> K = 52 - Z.log2 k -> Zpos p = k * 2 ^ K -> 0 <= K ->
  Zdigits2 (Zpos p) = 53 /\ 2 ^ 52 <= Zpos p < 2 ^ 53.
Proof.
  intros Hk EK Ep HK.
  assert (L : Z.log2 (Zpos p) = 52).
  { rewrite Ep, Z.log2_mul_pow2 by lia. lia. }
  split; [rewrite Zdigits2_log2 by lia; lia|].
  pose proof (Z.log2_spec (Zpos p) ltac:(lia)) as S. rewrite L in S. exact S.
Qed.

Lemma log2_bounds k b : 0 < k < 2 ^ b -> 0 <= Z.log2 k < b.
Proof.
  intros [H1 H2]. split; [apply Z.log2_nonneg|apply Z.log2_lt_pow2; lia].
Qed.

Lemma scale_bound A Q X v :
  1 <= A -> 0 < Q -> 0 <= X -> 2 * (A * Q * X) <= Q * v -> 2 * X <= v.
Proof.
  intros HA HQ HX H.
  assert (H0 : 0 <= (A - 1) * (Q * X))
    by (apply Z.mul_nonneg_nonneg; [lia|apply Z.mul_nonneg_nonneg; lia]).
  apply (Z.mul_le_mono_pos_l _ _ Q HQ). lia.
Qed.

Lemma truediv_spec W v :
  0 < W <= G_MAXINT -> 0 < v <= G_MAXINT ->
  exists mx E,
    truediv W v = Some (S754_finite false mx (- E))
    /\ 2 ^ 52 <= Zpos mx < 2 ^ 53
    /\ 21 <= E <= 105
    /\ 2 * Z.abs (Zpos mx * v - W * 2 ^ E) <= v.
Proof.
  unfold G_MAXINT. intros HW Hv. unfold truediv.
  destruct (Z.eqb_spec v 0) as [?|_]; [lia|].
  destruct (float_of_int_spec W ltac:(lia)) as (mW & Kw & -> & EKw & EmW).
  destruct (float_of_int_spec v ltac:(lia)) as (mv & Kv & -> & EKv & Emv).
  pose proof (log2_bounds W 31 ltac:(lia)) as LW.
  pose proof (log2_bounds v 31 ltac:(lia)) as Lv.
  destruct (canonical_digits mW Kw W) as [DW BW]; try lia.
  destruct (canonical_digits mv Kv v) as [Dv Bv]; try lia.
  cbn [SFdiv xorb].
  rewrite SFdiv_core_binary_53 by lia.
  set (q := Zpos mW * 2 ^ 53 / Zpos mv).
  set (r := (Zpos mW * 2 ^ 53) mod Zpos mv).
  assert (Eqr : Zpos mW * 2 ^ 53 = q * Zpos mv + r)
    by (unfold q, r; rewrite (Z.mul_comm _ (Zpos mv)); apply Z.div_mod; lia).
  assert (Hr : 0 <= r < Zpos mv) by (apply Z.mod_pos_bound; lia).
  assert (Bq : 2 ^ 52 <= q < 2 ^ 54).
  { split.
    - apply Z.div_le_lower_bound; lia.
    - apply Z.div_lt_upper_bound; lia. }
  assert (Lq : Z.log2 q = 52 \/ Z.log2 q = 53).
  { assert (52 <= Z.log2 q) by (apply Z.log2_le_pow2; lia).
    assert (Z.log2 q < 54) by (apply Z.log2_lt_pow2; lia). lia. }
  pose proof (Zdigits2_log2 q ltac:(lia)) as Dq.
  destruct (binary_round_aux_spec q (- Kw - - Kv - 53)
              (new_location (Zpos mv) r) (Zpos mW * 2 ^ 53) (Zpos mv))
    as (m' & e' & Er & Bm & Be & Hb & _); try lia.
  { rewrite Eqr. apply new_location_ok; lia. }
  rewrite Er. rewrite Dq in *.
  set (g := Z.log2 q + 1 - 53) in *.
  set (t := e' - (- Kw - - Kv - 53 + g)) in *.
  exists m', (- e'). rewrite Z.opp_involutive.
  split; [reflexivity|]. split; [exact Bm|]. split; [unfold g in *; lia|].
  assert (Epow : 2 ^ Kw * 2 ^ 53 = 2 ^ (- e') * (2 ^ t * 2 ^ g * 2 ^ Kv)).
  { rewrite <- !Z.pow_add_r by (unfold t, g in *; lia). f_equal. unfold t. lia. }
  assert (Pt : 0 < 2 ^ t) by (apply pow2_pos; unfold t; lia).
  assert (Pg : 0 < 2 ^ g) by (apply pow2_pos; unfold g; lia).
  assert (PK : 0 < 2 ^ Kv) by (apply pow2_pos; lia).
  assert (Pt1 : 1 <= 2 ^ t) by lia.
  rewrite EmW, Emv in Hb.
  replace (Zpos m' * 2 ^ t * (2 ^ g * (v * 2 ^ Kv)) - W * 2 ^ Kw * 2 ^ 53)
    with ((2 ^ t * 2 ^ g * 2 ^ Kv) * (Zpos m' * v - W * 2 ^ (- e'))) in Hb
    by (rewrite <- (Z.mul_assoc W), Epow; ring).
  rewrite Z.abs_mul, (Z.abs_eq (2 ^ t * 2 ^ g * 2 ^ Kv)) in Hb
    by (apply Z.lt_le_incl; repeat apply Z.mul_pos_pos; assumption).
  apply (scale_bound (2 ^ t) (2 ^ g * 2 ^ Kv)); try assumption.
  - apply Z.mul_pos_pos; assumption.
  - apply Z.abs_nonneg.
  - rewrite (Z.mul_assoc (2 ^ t)).
    replace (2 ^ g * 2 ^ Kv * v) with (2 ^ g * (v * 2 ^ Kv)) by ring. exact Hb.
Qed.

Lemma int_of_float_finite m E :
  0 <= E -> int_of_float (S754_finite false m (- E)) = Some (Zpos m / 2 ^ E).
Proof.
  intros HE. unfold int_of_float. destruct E as [|p|p]; try lia.
  - cbn [Z.opp]. rewrite Z.shiftl_0_r, Z.pow_0_r, Z.div_1_r. reflexivity.
  - cbn [Z.opp]. rewrite Z.shiftr_div_pow2 by lia. reflexivity.
Qed.

Lemma cancel_bound Q X B :
  0 < Q -> 2 * Z.abs (Q * X) <= Q * B -> 2 * Z.abs X <= B.
Proof.
  intros HQ H. rewrite Z.abs_mul, (Z.abs_eq Q) in H by lia.
  apply (Z.mul_le_mono_pos_l _ _ Q HQ). lia.
Qed.

Lemma cancel_tie Q X B :
  0 < Q -> 2 * Z.abs X = B -> 2 * Z.abs (Q * X) = Q * B.
Proof.
  intros HQ H. rewrite Z.abs_mul, (Z.abs_eq Q) by lia. rewrite <- H. ring.
Qed.

Lemma mul_trunc_spec mx E k :
  2 ^ 52 <= Zpos mx < 2 ^ 53 -> 0 < k < 2 ^ 53 ->
  Z.log2 (Zpos mx * k) - 52 + 1 <= E <= 1000 ->
  exists m2,
    int_of_float (float_mul_int (S754_finite false mx (- E)) k)
      = Some (m2 / 2 ^ (E - (Z.log2 (Zpos mx * k) - 52)))
    /\ 2 ^ 52 <= m2 <= 2 ^ 53
    /\ 2 * Z.abs (m2 * 2 ^ (Z.log2 (Zpos mx * k) - 52) - Zpos mx * k)
       <= 2 ^ (Z.log2 (Zpos mx * k) - 52)
    /\ (2 * Z.abs (m2 * 2 ^ (Z.log2 (Zpos mx * k) - 52) - Zpos mx * k)
        = 2 ^ (Z.log2 (Zpos mx * k) - 52) -> Z.even m2 = true).
Proof.
  intros Bx Hk HE. set (h := Z.log2 (Zpos mx * k) - 52) in *.
  destruct (float_of_int_spec k Hk) as (mk & K & Ek & EK & Emk).
  pose proof (log2_bounds k 53 Hk) as Lk.
  assert (Hh : 0 <= h).
  { unfold h. assert (52 <= Z.log2 (Zpos mx * k)); [|lia].
    apply Z.log2_le_pow2; nia. }
  unfold float_mul_int. rewrite Ek. cbn [SFmul xorb].
  assert (PK : 0 < 2 ^ K) by (apply pow2_pos; lia).
  assert (Ph : 0 < 2 ^ h) by (apply pow2_pos; lia).
  assert (Eprod : Zpos (mx * mk) = Zpos mx * k * 2 ^ K)
    by (rewrite Pos2Z.inj_mul, Emk; ring).
  assert (Lprod : Z.log2 (Zpos (mx * mk)) = h + K + 52).
  { rewrite Eprod, Z.log2_mul_pow2 by nia. unfold h. lia. }
  pose proof (Zdigits2_log2 (Zpos (mx * mk)) ltac:(lia)) as Dprod.
  destruct (binary_round_aux_spec (Zpos (mx * mk)) (- E + - K) loc_Exact
              (Zpos (mx * mk)) 1)
    as (m' & e' & Er & Bm & Be & Hb & Ht); try lia.
  { unfold rec_ok; cbn [shr_record_of_loc shr_m shr_r shr_s]. lia. }
  rewrite Er. rewrite Dprod, Lprod in Be, Hb, Ht.
  replace (h + K + 52 + 1 - 53) with (h + K) in * by lia.
  replace (- E + - K + (h + K)) with (h - E) in * by lia.
  set (t := e' - (h - E)) in *.
  assert (Pt : 0 < 2 ^ t) by (apply pow2_pos; unfold t; lia).
  exists (Zpos m' * 2 ^ t).
  assert (Hfac : Zpos m' * 2 ^ t * (2 ^ (h + K) * 1) - Zpos (mx * mk)
                 = 2 ^ K * (Zpos m' * 2 ^ t * 2 ^ h - Zpos mx * k)).
  { rewrite Eprod, Z.pow_add_r by lia. ring. }
  rewrite Hfac in Hb, Ht.
  replace (2 ^ (h + K) * 1) with (2 ^ K * 2 ^ h) in Hb, Ht
    by (rewrite Z.pow_add_r by lia; ring).
  split; [|split; [|split]].
  - replace e' with (- (- e')) by lia.
    rewrite int_of_float_finite by (unfold t in *; lia).
    f_equal.
    replace (2 ^ (E - h)) with (2 ^ (- e') * 2 ^ t)
      by (rewrite <- Z.pow_add_r by (unfold t in *; lia); f_equal; unfold t; lia).
    rewrite Z.div_mul_cancel_r; [reflexivity| |lia].
    apply Z.neq_sym, Z.lt_neq, pow2_pos. unfold t in *; lia.
  - assert (Ht01 : t = 0 \/ t = 1) by (unfold t in *; lia).
    destruct Ht01 as [->| ->].
    + rewrite Z.pow_0_r. lia.
    + rewrite Z.pow_1_r.
      assert (Zpos m' = 2 ^ 52); [|lia].
      apply cancel_bound in Hb; [|exact PK].
      rewrite Z.pow_1_r in Hb.
      (* the renormalised case: the mantissa before renormalisation is at most 2^53 *)
      assert (Hup : Zpos mx * k < 2 ^ (h + 53)).
      { pose proof (Z.log2_spec (Zpos mx * k) ltac:(nia)) as L.
        replace (Z.succ (Z.log2 (Zpos mx * k))) with (h + 53) in L by (unfold h; lia).
        lia. }
      rewrite Z.pow_add_r in Hup by lia.
      assert (Zpos m' * 2 * 2 ^ h <= 2 ^ 53 * 2 ^ h); [|nia].
      assert (Zpos m' * 2 * 2 ^ h - Zpos mx * k <= 2 ^ h) by lia.
      assert (Zpos m' * 2 * 2 ^ h < (2 ^ 53 + 1) * 2 ^ h) by lia.
      assert (Zpos m' * 2 < 2 ^ 53 + 1) by (apply (Z.mul_lt_mono_pos_r (2 ^ h)); lia).
      apply Z.mul_le_mono_nonneg_r; lia.
  - apply cancel_bound with (Q := 2 ^ K); assumption.
  - intros Htie. apply Ht. apply cancel_tie; assumption.
Qed.

(** * The split positions *)

Section Bracketing.
Variables mx P T H m2 k : Z.
Hypothesis HP : P = T * H.
Hypothesis HH : 0 < H.
Hypothesis HT : 0 < T.
Hypothesis HR : 2 * Z.abs (m2 * H - mx * k) <= H.

Lemma bracket_lower n : n * P <= mx * k -> n <= m2 / T.
Proof.
  intros Hn. apply Z.div_le_lower_bound; [exact HT|].
  destruct (Z_lt_le_dec m2 (T * n)) as [Hlt|]; [exfalso|assumption].
  assert ((m2 + 1) * H <= T * n * H) by (apply Z.mul_le_mono_nonneg_r; lia).
  subst P. lia.
Qed.

Lemma bracket_upper n : mx * k <= n * P -> m2 / T <= n.
Proof.
  intros Hn. assert (m2 / T < n + 1); [|lia].
  apply Z.div_lt_upper_bound; [exact HT|].
  destruct (Z_lt_le_dec m2 (T * (n + 1))) as [|Hge]; [assumption|exfalso].
  assert (T * (n + 1) * H <= m2 * H) by (apply Z.mul_le_mono_nonneg_r; lia).
  assert (1 * H <= T * H) by (apply Z.mul_le_mono_nonneg_r; lia).
  subst P. lia.
Qed.

Lemma bracket_strict n : 2 * (mx * k) < 2 * (n * P) - H -> m2 / T < n.
Proof.
  intros Hn. apply Z.div_lt_upper_bound; [exact HT|].
  destruct (Z_lt_le_dec m2 (T * n)) as [|Hge]; [assumption|exfalso].
  assert (T * n * H <= m2 * H) by (apply Z.mul_le_mono_nonneg_r; lia).
  subst P. lia.
Qed.
End Bracketing.

Lemma floor_scaled P T H m2 :
  P = T * H -> 0 < T -> 0 <= H -> (m2 / T) * P <= m2 * H.
Proof.
  intros HP HT HH. subst P. pose proof (Z.mul_div_le m2 T HT).
  assert (T * (m2 / T) * H <= m2 * H) by (apply Z.mul_le_mono_nonneg_r; lia).
  lia.
Qed.

Lemma div_bound_mantissa mx v W P :
  0 < v -> 0 <= W -> 0 <= P -> 2 * Z.abs (mx * v - W * P) <= v -> mx <= W * P.
Proof.
  intros Hv HW HP HD.
  destruct (Z_le_gt_dec mx (W * P)) as [|Hgt]; [assumption|exfalso].
  assert (0 <= W * P) by (apply Z.mul_nonneg_nonneg; lia).
  assert ((W * P + 1) * v <= mx * v) by (apply Z.mul_le_mono_nonneg_r; lia).
  assert (W * P * 1 <= W * P * v) by (apply Z.mul_le_mono_nonneg_l; lia).
  lia.
Qed.

Lemma guide_pos_num W v mx E k :
  0 < W <= G_MAXINT -> 0 < v <= 100 -> 0 < k <= 100 ->
  truediv W v = Some (S754_finite false mx (- E)) ->
  2 ^ 52 <= Zpos mx < 2 ^ 53 -> 21 <= E <= 105 ->
  2 * Z.abs (Zpos mx * v - W * 2 ^ E) <= v ->
  0 <= Z.log2 (Zpos mx * k) - 52
  /\ Z.log2 (Zpos mx * k) - 52 + 15 <= E
  /\ 2 ^ (Z.log2 (Zpos mx * k) - 52) <= Zpos mx
  /\ exists m2,
      guide_pos W v (k - 1) = Some (m2 / 2 ^ (E - (Z.log2 (Zpos mx * k) - 52)))
      /\ 2 * Z.abs (m2 * 2 ^ (Z.log2 (Zpos mx * k) - 52) - Zpos mx * k)
         <= 2 ^ (Z.log2 (Zpos mx * k) - 52)
      /\ (2 * Z.abs (m2 * 2 ^ (Z.log2 (Zpos mx * k) - 52) - Zpos mx * k)
          = 2 ^ (Z.log2 (Zpos mx * k) - 52) -> Z.even m2 = true).
Proof.
  unfold G_MAXINT. intros HW Hv Hk Etd Bx HE HD.
  set (h := Z.log2 (Zpos mx * k) - 52).
  assert (PE : 0 < 2 ^ E) by (apply pow2_pos; lia).
  assert (Hmk : 0 < Zpos mx * k) by (apply Z.mul_pos_pos; lia).
  assert (Hh : 0 <= h).
  { unfold h. assert (52 <= Z.log2 (Zpos mx * k)); [|lia].
    apply Z.log2_le_pow2; [exact Hmk|].
    assert (Zpos mx * 1 <= Zpos mx * k) by (apply Z.mul_le_mono_nonneg_l; lia). lia. }
  assert (HhE : h + 15 <= E).
  { pose proof (div_bound_mantissa (Zpos mx) v W (2 ^ E) ltac:(lia) ltac:(lia) ltac:(lia) HD) as Hm.
    assert (Z.log2 (Zpos mx * k) < E + 38); [|unfold h; lia].
    apply Z.log2_lt_pow2; [exact Hmk|].
    rewrite Z.pow_add_r by lia.
    assert (Zpos mx * k <= W * 2 ^ E * k) by (apply Z.mul_le_mono_nonneg_r; lia).
    assert (W * 2 ^ E * k <= W * 2 ^ E * 100)
      by (apply Z.mul_le_mono_nonneg_l; [apply Z.mul_nonneg_nonneg|]; lia).
    assert (W * 2 ^ E <= 2147483647 * 2 ^ E) by (apply Z.mul_le_mono_nonneg_r; lia).
    change (2 ^ 38) with 274877906944. lia. }
  assert (Ph : 0 < 2 ^ h) by (apply pow2_pos; lia).
  assert (HH : 2 ^ h <= Zpos mx).
  { pose proof (Z.log2_spec (Zpos mx * k) Hmk) as [L _].
    replace (Z.log2 (Zpos mx * k)) with (h + 52) in L by (unfold h; lia).
    rewrite Z.pow_add_r in L by lia.
    assert (Zpos mx * k <= Zpos mx * 100) by (apply Z.mul_le_mono_nonneg_l; lia).
    change (2 ^ 52) with 4503599627370496 in L. lia. }
  split; [exact Hh|]. split; [exact HhE|]. split; [exact HH|].
  destruct (mul_trunc_spec mx E k Bx ltac:(lia) ltac:(fold h; lia))
    as (m2 & Ei & _ & HR & HT).
  exists m2. fold h in Ei, HR, HT. split; [|split; assumption].
  unfold guide_pos. rewrite Etd. replace (k - 1 + 1) with k by lia. exact Ei.
Qed.

Lemma guide_pos_floor W v k :
  0 < W <= G_MAXINT -> 0 < v <= 100 -> 0 < k <= 100 ->
  exists p, guide_pos W v (k - 1) = Some p
    /\ W * k / v - 1 <= p <= W * k / v
    /\ ((W * k) mod v <> 0 -> p = W * k / v).
Proof.
  intros HW Hv Hk.
  destruct (truediv_spec W v HW ltac:(unfold G_MAXINT; lia)) as (mx & E & Etd & Bx & HE & HD).
  destruct (guide_pos_num W v mx E k HW Hv Hk Etd Bx HE HD)
    as (Hh & HhE & HH & m2 & Eg & HR & _).
  set (h := Z.log2 (Zpos mx * k) - 52) in *.
  exists (m2 / 2 ^ (E - h)). split; [exact Eg|].
  assert (HP : 2 ^ E = 2 ^ (E - h) * 2 ^ h)
    by (rewrite <- Z.pow_add_r by lia; f_equal; lia).
  assert (PH : 0 < 2 ^ h) by (apply pow2_pos; lia).
  assert (PT : 0 < 2 ^ (E - h)) by (apply pow2_pos; lia).
  assert (T15 : 2 ^ 15 <= 2 ^ (E - h)) by (apply Z.pow_le_mono_r; lia).
  change (2 ^ 15) with 32768 in T15.
  set (P := 2 ^ E) in *. set (H := 2 ^ h) in *. set (T := 2 ^ (E - h)) in *.
  assert (HPH : 32768 * H <= P)
    by (rewrite HP; apply Z.mul_le_mono_nonneg_r; lia).
  unfold G_MAXINT in HW.
  set (q := W * k / v). set (r := (W * k) mod v).
  assert (Eqr : W * k = v * q + r) by (apply Z.div_mod; lia).
  assert (Hr : 0 <= r < v) by (apply Z.mod_pos_bound; lia).
  assert (Hq : 0 <= q) by (apply Z.div_pos; [apply Z.mul_nonneg_nonneg|]; lia).
  assert (EWP : W * P * k = v * q * P + r * P)
    by (replace (W * P * k) with (W * k * P) by ring; rewrite Eqr; ring).
  assert (HkH : v * k + v * H <= 10100 * H).
  { assert (v * k <= 100 * 100)
      by (apply Z.mul_le_mono_nonneg; lia).
    assert (v * H <= 100 * H) by (apply Z.mul_le_mono_nonneg_r; lia). lia. }
  assert (Dlo : (2 * (W * P) - v) * k <= 2 * (Zpos mx * v) * k)
    by (apply Z.mul_le_mono_nonneg_r; lia).
  assert (Dhi : 2 * (Zpos mx * v) * k <= (2 * (W * P) + v) * k)
    by (apply Z.mul_le_mono_nonneg_r; lia).
  assert (Up : m2 / T < q + 1).
  { apply (bracket_strict (Zpos mx) P T H m2 k HP PH PT HR).
    apply (Z.mul_lt_mono_pos_r v); [lia|].
    assert (r * P <= (v - 1) * P) by (apply Z.mul_le_mono_nonneg_r; lia).
    lia. }
  assert (Lo1 : q - 1 <= m2 / T).
  { apply (bracket_lower (Zpos mx) P T H m2 k HP PH PT HR).
    apply (Z.mul_le_mono_pos_r _ _ (2 * v)); [lia|].
    assert (0 <= r * P) by (apply Z.mul_nonneg_nonneg; lia).
    assert (1 * P <= v * P) by (apply Z.mul_le_mono_nonneg_r; lia).
    lia. }
  split; [lia|]. intros Hne.
  assert (q <= m2 / T); [|lia].
  apply (bracket_lower (Zpos mx) P T H m2 k HP PH PT HR).
  apply (Z.mul_le_mono_pos_r _ _ (2 * v)); [lia|].
  assert (1 * P <= r * P) by (apply Z.mul_le_mono_nonneg_r; lia).
  lia.
Qed.

Lemma guide_pos_mono W v k k' :
  0 < W <= G_MAXINT -> 0 < v <= 100 -> 0 < k -> k < k' -> k' <= 100 ->
  exists p p', guide_pos W v (k - 1) = Some p
    /\ guide_pos W v (k' - 1) = Some p'
    /\ p <= p'
    /\ (v <= W -> p < p').
Proof.
  intros HW Hv Hk Hkk Hk'.
  destruct (truediv_spec W v HW ltac:(unfold G_MAXINT; lia)) as (mx & E & Etd & Bx & HE & HD).
  destruct (guide_pos_num W v mx E k HW Hv ltac:(lia) Etd Bx HE HD)
    as (Hh & HhE & HH & m2 & Eg & HR & _).
  destruct (guide_pos_num W v mx E k' HW Hv ltac:(lia) Etd Bx HE HD)
    as (Hh' & HhE' & HH' & m2' & Eg' & HR' & HT').
  assert (Hmk : 0 < Zpos mx * k) by (apply Z.mul_pos_pos; lia).
  assert (Hkm : Zpos mx * k + Zpos mx <= Zpos mx * k').
  { replace (Zpos mx * k + Zpos mx) with (Zpos mx * (k + 1)) by ring.
    apply Z.mul_le_mono_nonneg_l; lia. }
  assert (Hlog : Z.log2 (Zpos mx * k) <= Z.log2 (Zpos mx * k'))
    by (apply Z.log2_le_mono; lia).
  set (h := Z.log2 (Zpos mx * k) - 52) in *.
  set (h' := Z.log2 (Zpos mx * k') - 52) in *.
  assert (HP : 2 ^ E = 2 ^ (E - h) * 2 ^ h)
    by (rewrite <- Z.pow_add_r by lia; f_equal; lia).
  assert (HP' : 2 ^ E = 2 ^ (E - h') * 2 ^ h')
    by (rewrite <- Z.pow_add_r by lia; f_equal; lia).
  assert (PH : 0 < 2 ^ h) by (apply pow2_pos; lia).
  assert (PT : 0 < 2 ^ (E - h)) by (apply pow2_pos; lia).
  assert (PH' : 0 < 2 ^ h') by (apply pow2_pos; lia).
  assert (PT' : 0 < 2 ^ (E - h')) by (apply pow2_pos; lia).
  assert (HHH : 2 ^ h <= 2 ^ h') by (apply Z.pow_le_mono_r; unfold h, h'; lia).
  assert (Tev : exists T1, 2 ^ (E - h') = 2 * T1).
  { exists (2 ^ (E - h' - 1)). rewrite <- Z.pow_succ_r by lia. f_equal. lia. }
  set (P := 2 ^ E) in *. set (H := 2 ^ h) in *. set (T := 2 ^ (E - h)) in *.
  set (H' := 2 ^ h') in *. set (T' := 2 ^ (E - h')) in *.
  exists (m2 / T), (m2' / T'). split; [exact Eg|]. split; [exact Eg'|].
  split.
  - apply (bracket_lower (Zpos mx) P T' H' m2' k' HP' PH' PT' HR').
    pose proof (floor_scaled P T H m2 HP PT ltac:(lia)) as Hfl. lia.
  - intros HvW.
    apply (bracket_strict (Zpos mx) P T H m2 k HP PH PT HR).
    assert (HmP : P <= Zpos mx).
    { destruct (Z_le_gt_dec P (Zpos mx)) as [|Hgt]; [assumption|exfalso].
      assert (PP : 0 < P) by (unfold P; apply pow2_pos; lia).
      assert (Zpos mx * v <= (P - 1) * v) by (apply Z.mul_le_mono_nonneg_r; lia).
      assert (v * P <= W * P) by (apply Z.mul_le_mono_nonneg_r; lia).
      lia. }
    set (n' := m2' / T').
    assert (Hdm : m2' = T' * n' + m2' mod T') by (apply Z.div_mod; lia).
    assert (Hmod : 0 <= m2' mod T' < T') by (apply Z.mod_pos_bound; lia).
    assert (Hm2' : (m2' + 1) * H' <= T' * (n' + 1) * H')
      by (apply Z.mul_le_mono_nonneg_r; lia).
    assert (Hstrict : 2 * (Zpos mx * k') < 2 * ((n' + 1) * P) - H').
    { destruct (Z.eq_dec (2 * (Zpos mx * k')) (2 * ((n' + 1) * P) - H')) as [Heq|Hne].
      - exfalso.
        assert (Em2 : m2' * H' = (T' * (n' + 1) - 1) * H') by (rewrite HP' in Heq; lia).
        apply Z.mul_cancel_r in Em2; [|lia].
        assert (Htie : 2 * Z.abs (m2' * H' - Zpos mx * k') = H') by (rewrite HP' in Heq; lia).
        specialize (HT' Htie). destruct Tev as [T1 ET1].
        rewrite Em2, ET1 in HT'.
        replace (2 * T1 * (n' + 1) - 1) with (1 + 2 * (T1 * (n' + 1) - 1)) in HT' by ring.
        rewrite Z.even_add_mul_2 in HT'. discriminate.
      - rewrite HP' in *. lia. }
    rewrite HP' in Hstrict. rewrite HP'. lia.
Qed.

(** * The centre position *)

Lemma centre_pos_spec W : 0 < W <= G_MAXINT -> centre_pos W = Some (W / 2).
Proof.
  intros HW. unfold centre_pos.
  destruct (truediv_spec W 2 HW ltac:(unfold G_MAXINT; lia)) as (mx & E & -> & _ & HE & HD).
  rewrite int_of_float_finite by lia. f_equal.
  assert (EP : 2 ^ E = 2 ^ (E - 1) * 2)
    by (rewrite <- (Z.pow_1_r 2) at 3; rewrite <- Z.pow_add_r by lia; f_equal; lia).
  assert (PP : 0 < 2 ^ (E - 1)) by (apply pow2_pos; lia).
  rewrite EP in *.
  assert (Zpos mx = W * 2 ^ (E - 1)) as -> by lia.
  rewrite (Z.mul_comm (2 ^ (E - 1)) 2).
  apply Z.div_mul_cancel_r; lia.
Qed.

(** * The [try] block as a list of insertions *)

Lemma bind_cong {A B} (c c' : M A) (k k' : A -> M B) img :
  (forall i, c i = c' i) -> (forall a i, k a i = k' a i) ->
  bind c k img = bind c' k' img.
Proof.
  intros Hc Hk. unfold bind. rewrite Hc. destruct (c' img) as [[a|] i]; auto.
Qed.

Lemma exec_app l1 l2 img : exec (l1 ++ l2) img = (exec l1 ;;; exec l2) img.
Proof.
  revert img. induction l1 as [|a l1 IH]; intros img.
  - reflexivity.
  - cbn [app exec for_in]. unfold exec in IH. unfold bind.
    destruct (step a img) as [[[]|] i]; [|reflexivity].
    rewrite IH. reflexivity.
Qed.

Lemma for_in_split_plan mk dim split img :
  when (split >? 1)
    (for_in (range (split - 1)) (fun i =>
       pos <- of_option (guide_pos dim split i) ;; add_guide (mk pos))) img
  = exec (split_plan mk dim split) img.
Proof.
  unfold when, split_plan. destruct (split >? 1); [|reflexivity].
  unfold exec. revert img.
  induction (range (split - 1)) as [|i l IH]; intros img; [reflexivity|].
  cbn [map for_in]. apply bind_cong; [|intros; apply IH].
  intros i0. unfold step. destruct (guide_pos dim split i); reflexivity.
Qed.

Lemma add_all_guides_exec W H config img :
  add_all_guides W H config img = exec (plan W H config) img.
Proof.
  unfold add_all_guides, plan. rewrite exec_app.
  apply bind_cong; [intros; apply for_in_split_plan|intros _ i1].
  rewrite exec_app.
  apply bind_cong; [intros; apply for_in_split_plan|intros _ i2].
  rewrite exec_app.
  apply bind_cong; intros.
  - unfold when. destruct (make_centre config); [|reflexivity].
    unfold exec, step, add_vguide, add_hguide. cbn [for_in].
    destruct (centre_pos W) as [cx|]; [|reflexivity].
    cbv [option_map of_option bind ret].
    destruct (add_guide (VGuide cx) i) as [[[]|] i3]; [|reflexivity].
    destruct (centre_pos H) as [cy|]; [|reflexivity].
    destruct (add_guide (HGuide cy) i3) as [[[]|] i4]; reflexivity.
  - unfold when. destruct (draw_borders config); [|reflexivity].
    unfold exec, step, add_vguide, add_hguide. cbn [for_in].
    cbv [of_option bind ret].
    destruct (add_guide (VGuide 0) i) as [[[]|] j1]; [|reflexivity].
    destruct (add_guide (HGuide 0) j1) as [[[]|] j2]; [|reflexivity].
    destruct (add_guide (VGuide W) j2) as [[[]|] j3]; [|reflexivity].
    destruct (add_guide (HGuide H) j3) as [[[]|] j4]; reflexivity.
Qed.

Lemma extends_refl img : extends img img [] [].
Proof. unfold extends. cbn. rewrite !app_nil_r. repeat split; lia. Qed.

(** What one run of the insertions does, by its outcome. *)
Lemma exec_spec l : forall img o img',
  exec l img = (o, img') ->
  match o with
  | Returned _ =>
      exists gs, l = map Some gs /\ extends img img' gs []
      /\ forall n, (n < length gs)%nat -> faults img (attempts img + n)%nat = false
  | Raised =>
      exists gs og rest, l = map Some gs ++ og :: rest
        /\ match og with
           | None => extends img img' gs []
           | Some g => extends img img' gs [CallAddFailed g]
                       /\ faults img (attempts img + length gs)%nat = true
           end
  end.
Proof.
  induction l as [|og l IH]; intros img o img' E.
  - cbn in E. unfold ret in E. injection E as <- <-.
    exists []. split; [reflexivity|]. split; [apply extends_refl|]. cbn. lia.
  - cbn [exec for_in] in E. unfold bind at 1 in E.
    destruct og as [g|].
    + unfold step, of_option, bind, ret, add_guide in E.
      destruct (faults img (attempts img)) eqn:Ef.
      * injection E as <- <-. exists [], (Some g), l.
        split; [reflexivity|]. split.
        -- unfold extends. cbn. rewrite app_nil_r. repeat split; lia.
        -- cbn. rewrite Nat.add_0_r. exact Ef.
      * apply IH in E. destruct o as [[]|].
        -- destruct E as (gs & -> & Hx & Hf). exists (g :: gs).
           split; [reflexivity|]. split.
           ++ unfold extends in *. cbn in *.
              destruct Hx as (-> & -> & -> & -> & -> & ->).
              rewrite <- !app_assoc. cbn. repeat split; lia.
           ++ intros [|n] Hn; cbn in *.
              ** rewrite Nat.add_0_r. exact Ef.
              ** specialize (Hf n ltac:(lia)).
                 replace (attempts img + S n)%nat with (S (attempts img + n)) by lia.
                 exact Hf.
        -- destruct E as (gs & og & rest & -> & Hx). exists (g :: gs), og, rest.
           split; [reflexivity|].
           destruct og as [g'|].
           ++ destruct Hx as [Hx Hf]. split.
              ** unfold extends in *. cbn in *.
                 destruct Hx as (-> & -> & -> & -> & -> & ->).
                 rewrite <- !app_assoc. cbn. repeat split; lia.
              ** cbn in *.
                 replace (attempts img + S (length gs))%nat
                   with (S (attempts img + length gs)) by lia.
                 exact Hf.
           ++ unfold extends in *. cbn in *.
              destruct Hx as (-> & -> & -> & -> & -> & ->).
              rewrite <- !app_assoc. cbn. repeat split; lia.
    + unfold step, of_option, bind, raise in E. injection E as <- <-.
      exists [], None, l. split; [reflexivity|]. apply extends_refl.
Qed.

Lemma nth_range n m : (n < Z.to_nat m)%nat -> nth n (range m) 0 = Z.of_nat n.
Proof.
  intros Hn. unfold range.
  change 0 with (Z.of_nat 0). rewrite map_nth, seq_nth by lia. reflexivity.
Qed.

Lemma length_range m : length (range m) = Z.to_nat m.
Proof. unfold range. rewrite length_map, length_seq. reflexivity. Qed.

Lemma map_all_some {A} (f : Z -> option A) (d : A) l :
  (forall i, In i l -> exists a, f i = Some a) ->
  exists ps, map f l = map Some ps /\ length ps = length l
    /\ forall n, (n < length l)%nat -> f (nth n l 0) = Some (nth n ps d).
Proof.
  induction l as [|i l IH]; intros Hall.
  - exists []. cbn. repeat split. intros n Hn. lia.
  - destruct (Hall i (or_introl eq_refl)) as [a Ea].
    destruct IH as (ps & E & Hl & Hn); [intros j Hj; apply Hall; right; exact Hj|].
    exists (a :: ps). cbn [map length]. rewrite Ea, E, Hl.
    repeat split. intros [|n] Hlt; cbn [nth]; [exact Ea|apply Hn; cbn in Hlt; lia].
Qed.

Lemma in_range_list i m : In i (range m) -> 0 <= i < m.
Proof.
  unfold range. rewrite in_map_iff. intros (n & <- & Hn).
  apply in_seq in Hn. lia.
Qed.

Lemma split_plan_spec mk dim split :
  0 < dim <= G_MAXINT -> 1 <= split <= 100 ->
  exists ps, split_plan mk dim split = map Some (map mk ps)
    /\ split_positions dim split ps.
Proof.
  intros Hd Hs. unfold split_plan, split_positions.
  destruct (Z.gtb_spec split 1) as [Hgt|Hle].
  - destruct (map_all_some (guide_pos dim split) 0 (range (split - 1))) as (ps & E & Hl & Hn).
    { intros i Hi. apply in_range_list in Hi.
      destruct (guide_pos_floor dim split (i + 1) Hd ltac:(lia) ltac:(lia)) as (p & Ep & _).
      replace (i + 1 - 1) with i in Ep by lia. eauto. }
    exists ps. rewrite length_range in Hl, Hn. split; [|split; [exact Hl|]].
    + rewrite <- (map_map (guide_pos dim split) (option_map mk)), E, !map_map.
      reflexivity.
    + intros k Hk. specialize (Hn (Z.to_nat (k - 1)) ltac:(lia)).
      rewrite nth_range in Hn by lia. rewrite Z2Nat.id in Hn by lia. exact Hn.
  - exists []. replace split with 1 by lia. cbn. repeat split. intros k Hk. lia.
Qed.

Lemma plan_spec W H config :
  0 < W <= G_MAXINT -> 0 < H <= G_MAXINT -> in_range config ->
  exists vs hs,
    plan W H config
    = map Some (map VGuide vs ++ map HGuide hs
                ++ (if make_centre config then centre_guides W H else [])
                ++ (if draw_borders config then border_guides W H else []))
    /\ split_positions W (v_split config) vs
    /\ split_positions H (h_split config) hs.
Proof.
  intros HW HH [Hh Hv].
  destruct (split_plan_spec VGuide W (v_split config) HW Hv) as (vs & Ev & Pv).
  destruct (split_plan_spec HGuide H (h_split config) HH Hh) as (hs & Eh & Ph).
  exists vs, hs. split; [|split; assumption].
  unfold plan. rewrite Ev, Eh, !map_app, !centre_pos_spec by assumption.
  destruct (make_centre config), (draw_borders config); reflexivity.
Qed.

Lemma map_Some_inj {A} (l l' : list A) : map Some l = map Some l' -> l = l'.
Proof.
  revert l'. induction l as [|a l IH]; intros [|a' l'] E; try discriminate; [reflexivity|].
  cbn in E. injection E as -> E. f_equal. apply IH, E.
Qed.

(** The two exits of [run_on_image]. *)
Lemma run_on_image_spec config img r img' :
  run_on_image config img = (r, img') ->
  exists gs fl,
    width img' = width img /\ height img' = height img /\ faults img' = faults img
    /\ guides img' = guides img ++ gs
    /\ trace img' = trace img ++ CallUndoGroupStart :: map CallAdd gs ++ fl ++ [CallUndoGroupEnd]
    /\ attempts img' = (attempts img + length gs + length fl)%nat
    /\ ((r = (SUCCESS, GLib_Error) /\ fl = []
         /\ plan (width img) (height img) config = map Some gs
         /\ forall n, (n < length gs)%nat -> faults img (attempts img + n)%nat = false)
        \/ (r = (EXECUTION_ERROR, GLib_Error)
            /\ exists og rest,
                plan (width img) (height img) config = map Some gs ++ og :: rest
                /\ match og with
                   | Some g => fl = [CallAddFailed g]
                               /\ faults img (attempts img + length gs)%nat = true
                   | None => fl = []
                   end)).
Proof.
  unfold run_on_image. rewrite add_all_guides_exec.
  destruct (exec (plan (width img) (height img) config) (undo_group_start img))
    as [o mid] eqn:Ex.
  apply exec_spec in Ex. destruct o as [[]|]; intros E; injection E as <- <-.
  - destruct Ex as (gs & Ep & (Hw & Hh & Hf & Hg & Ht & Ha) & Hok).
    exists gs, []. cbn in *. rewrite Hw, Hh, Hf, Hg, Ht, Ha.
    rewrite <- !app_assoc. cbn. rewrite ?app_nil_r.
    repeat split; try lia. left. repeat split; assumption.
  - destruct Ex as (gs & og & rest & Ep & Hx). destruct og as [g|].
    + destruct Hx as [(Hw & Hh & Hf & Hg & Ht & Ha) Hfault].
      exists gs, [CallAddFailed g]. cbn in *. rewrite Hw, Hh, Hf, Hg, Ht, Ha.
      rewrite <- !app_assoc. cbn.
      repeat split; try lia. right. split; [reflexivity|].
      exists (Some g), rest. repeat split; assumption.
    + destruct Hx as (Hw & Hh & Hf & Hg & Ht & Ha).
      exists gs, []. cbn in *. rewrite Hw, Hh, Hf, Hg, Ht, Ha.
      rewrite <- !app_assoc. cbn. rewrite ?app_nil_r.
      repeat split; try lia. right. split; [reflexivity|].
      exists None, rest. repeat split; assumption.
Qed.

Lemma run_with_image mode img config dialog c r image' :
  show_dialog mode config dialog = Some c ->
  run_quick_guides mode (Some img) config dialog = (r, image') ->
  exists img', image' = Some img' /\ run_on_image c img = (r, img').
Proof.
  intros Hd. unfold run_quick_guides. rewrite Hd.
  destruct (run_on_image c img) as [r0 img0]. intros E. injection E as <- <-.
  eauto.
Qed.

(** The guides a successful invocation on a well-formed image leaves. *)
Lemma run_success_guides mode img config dialog c err img' :
  show_dialog mode config dialog = Some c ->
  well_formed img -> in_range c ->
  run_quick_guides mode (Some img) config dialog = ((SUCCESS, err), Some img') ->
  exists vs hs,
    guides img' = guides img ++ map VGuide vs ++ map HGuide hs
                  ++ (if make_centre c then centre_guides (width img) (height img) else [])
                  ++ (if draw_borders c then border_guides (width img) (height img) else [])
    /\ split_positions (width img) (v_split c) vs
    /\ split_positions (height img) (h_split c) hs.
Proof.
  intros Hd [HW HH] Hr Hrun.
  destruct (run_with_image _ _ _ _ _ _ _ Hd Hrun) as (img0 & E0 & Hon).
  injection E0 as <-.
  destruct (run_on_image_spec _ _ _ _ Hon) as (gs & fl & _ & _ & _ & Hg & _ & _ & Hcase).
  destruct Hcase as [(_ & _ & Hp & _)|(Hbad & _)]; [|discriminate].
  destruct (plan_spec _ _ c HW HH Hr) as (vs & hs & Ep & Pv & Ph).
  rewrite Ep in Hp. apply map_Some_inj in Hp. subst gs.
  exists vs, hs. auto.
Qed.

Lemma split_positions_rounded dim split ps :
  0 < dim <= G_MAXINT -> 1 <= split <= 100 ->
  split_positions dim split ps -> rounded_split_positions dim split ps.
Proof.
  intros Hd Hs [Hl Hp]. split; [exact Hl|]. split.
  - intros k Hk. pose proof (Hp k Hk) as Ek.
    destruct (guide_pos_floor dim split k Hd ltac:(lia) ltac:(lia)) as (p & Ep & Hb & Hx).
    rewrite Ek in Ep. injection Ep as <-. auto.
  - intros k k' H1 H2 H3.
    pose proof (Hp k ltac:(lia)) as Ek. pose proof (Hp k' ltac:(lia)) as Ek'.
    destruct (guide_pos_mono dim split k k' Hd ltac:(lia) ltac:(lia) H2 ltac:(lia))
      as (p & p' & Ep & Ep' & Hle & Hlt).
    rewrite Ek in Ep. rewrite Ek' in Ep'. injection Ep as <-. injection Ep' as <-.
    auto.
Qed.

Lemma split_positions_in_canvas dim split ps :
  0 < dim <= G_MAXINT -> 1 <= split <= 100 ->
  split_positions dim split ps -> Forall (fun p => 0 <= p <= dim) ps.
Proof.
  intros Hd Hs Hsp.
  destruct (split_positions_rounded dim split ps Hd Hs Hsp) as (Hl & Hk & _).
  apply Forall_forall. intros p Hin.
  destruct (In_nth ps p 0 Hin) as (n & Hn & <-).
  destruct (Hk (Z.of_nat n + 1) ltac:(lia)) as (_ & [Hlo Hhi] & Hx).
  replace (Z.to_nat (Z.of_nat n + 1 - 1)) with n in * by lia.
  set (k := Z.of_nat n + 1) in *.
  assert (Hkpos : 0 < k < split) by (unfold k; lia).
  assert (Hq : dim * k / split <= dim).
  { apply Z.div_le_upper_bound; [lia|].
    rewrite (Z.mul_comm split dim). apply Z.mul_le_mono_nonneg_l; lia. }
  split; [|lia].
  destruct (Z.eq_dec ((dim * k) mod split) 0) as [Hz|Hnz].
  - pose proof (Z.div_mod (dim * k) split ltac:(lia)) as Edm. rewrite Hz in Edm.
    assert (0 < dim * k) by (apply Z.mul_pos_pos; lia).
    assert (0 < dim * k / split); [|lia].
    destruct (Z_lt_le_dec 0 (dim * k / split)) as [|Hle]; [assumption|exfalso].
    assert (split * (dim * k / split) <= split * 0)
      by (apply Z.mul_le_mono_nonneg_l; lia).
    lia.
  - rewrite (Hx Hnz). apply Z.div_pos; [apply Z.mul_nonneg_nonneg|]; lia.
Qed.

(** * Properties of the procedure *)

Lemma map_Some_app_inv {A} (l : list A) : forall l1 l2,
  map Some l = l1 ++ l2 ->
  exists a b, l = a ++ b /\ l1 = map Some a /\ l2 = map Some b.
Proof.
  induction l as [|x l IH]; intros l1 l2 E.
  - cbn in E. symmetry in E. apply app_eq_nil in E as [-> ->].
    exists [], []. auto.
  - destruct l1 as [|y l1].
    + cbn in E. exists [], (x :: l). cbn. auto.
    + cbn in E. injection E as <- E. apply IH in E as (a & b & -> & -> & ->).
      exists (x :: a), b. auto.
Qed.

(** C1, as amended: on a well-formed image with both split counts in
    [1,100], a successful invocation adds exactly [v_split - 1] vertical split
    guides and [h_split - 1] horizontal ones (before the centre and border
    guides).  The [k]-th position is [int((dim / split) * k)] in binary64
    arithmetic: it is [floor(dim * k / split)], except that it may be one
    less when [split] divides [dim * k]; the positions never decrease and
    increase strictly when [split <= dim]. *)
Theorem split_guides_rounded mode img config dialog c err img' :
  show_dialog mode config dialog = Some c ->
  well_formed img -> in_range c ->
  run_quick_guides mode (Some img) config dialog = ((SUCCESS, err), Some img') ->
  exists vs hs,
    guides img' = guides img ++ map VGuide vs ++ map HGuide hs
                  ++ (if make_centre c then centre_guides (width img) (height img) else [])
                  ++ (if draw_borders c then border_guides (width img) (height img) else [])
    /\ rounded_split_positions (width img) (v_split c) vs
    /\ rounded_split_positions (height img) (h_split c) hs.
Proof.
  intros Hd Hwf Hr Hrun.
  destruct (run_success_guides _ _ _ _ _ _ _ Hd Hwf Hr Hrun) as (vs & hs & Hg & Pv & Ph).
  destruct Hwf as [HW HH]. destruct Hr as [Hh Hv].
  exists vs, hs. split; [exact Hg|].
  split; apply split_positions_rounded; assumption.
Qed.

Lemma split_guides_rounded_witness :
  exists img',
    run_quick_guides NONINTERACTIVE (Some (image0 30 600)) (mkConfig 3 22 true false) accept
    = ((SUCCESS, GLib_Error), Some img')
    /\ exists vs hs,
         guides img' = guides (image0 30 600) ++ map VGuide vs ++ map HGuide hs
                       ++ centre_guides 30 600 ++ []
         /\ rounded_split_positions 30 22 vs
         /\ rounded_split_positions 600 3 hs.
Proof.
  eexists. split; [vm_compute; reflexivity|].
  apply (split_guides_rounded NONINTERACTIVE (image0 30 600)
           (mkConfig 3 22 true false) accept (mkConfig 3 22 true false) GLib_Error).
  - reflexivity.
  - unfold well_formed, G_MAXINT; simpl; lia.
  - unfold in_range; simpl; lia.
  - vm_compute; reflexivity.
Defined.

(** The claim C1 as the specification words it fails at width 2 with 98
    bands: the 49th guide is at 0, not at [floor(2 * 49 / 98) = 1], and the
    positions are not strictly increasing. *)
Lemma split_guides_floor_counterexample :
  exists img',
    run_quick_guides NONINTERACTIVE (Some (image0 2 1)) (mkConfig 1 98 false false) accept
    = ((SUCCESS, GLib_Error), Some img')
    /\ forallb is_vguide (guides img') = true
    /\ length (guides img') = 97%nat
    /\ nth 48 (map guide_position (guides img')) 0 = 0
    /\ nth 48 (floor_positions 2 98) 0 = 1
    /\ map guide_position (guides img') <> floor_positions 2 98
    /\ ~ StronglySorted Z.lt (map guide_position (guides img')).
Proof.
  eexists. split; [vm_compute; reflexivity|].
  cbn [guides].
  split; [reflexivity|]. split; [reflexivity|]. split; [reflexivity|].
  split; [reflexivity|]. split.
  - intros E. apply (f_equal (fun l => nth 48 l 0)) in E. vm_compute in E. discriminate.
  - intros S. cbn [map guide_position] in S.
    apply StronglySorted_inv in S as [_ F].
    apply Forall_inv in F. lia.
Qed.

Lemma split_positions_one dim ps : split_positions dim 1 ps -> ps = [].
Proof. intros [Hl _]. destruct ps; [reflexivity|discriminate]. Qed.

(** C2: with [v_split = 1] a successful invocation adds no vertical split
    guide (what it adds is the horizontal split guides, then the centre and
    border guides), and with [h_split = 1] no horizontal split guide. *)
Theorem no_split_guides_for_one_band mode img config dialog c err img' :
  show_dialog mode config dialog = Some c ->
  well_formed img -> in_range c ->
  run_quick_guides mode (Some img) config dialog = ((SUCCESS, err), Some img') ->
  (v_split c = 1 ->
   exists hs,
     guides img' = guides img ++ map HGuide hs
                   ++ (if make_centre c then centre_guides (width img) (height img) else [])
                   ++ (if draw_borders c then border_guides (width img) (height img) else [])
     /\ split_positions (height img) (h_split c) hs)
  /\ (h_split c = 1 ->
      exists vs,
        guides img' = guides img ++ map VGuide vs
                      ++ (if make_centre c then centre_guides (width img) (height img) else [])
                      ++ (if draw_borders c then border_guides (width img) (height img) else [])
        /\ split_positions (width img) (v_split c) vs).
Proof.
  intros Hd Hwf Hr Hrun.
  destruct (run_success_guides _ _ _ _ _ _ _ Hd Hwf Hr Hrun) as (vs & hs & Hg & Pv & Ph).
  split; intros E1.
  - rewrite E1 in Pv. apply split_positions_one in Pv. subst vs.
    exists hs. split; [exact Hg|exact Ph].
  - rewrite E1 in Ph. apply split_positions_one in Ph. subst hs.
    exists vs. split; [exact Hg|exact Pv].
Qed.

Lemma no_split_guides_for_one_band_witness :
  exists img',
    run_quick_guides NONINTERACTIVE (Some (image0 800 400)) (mkConfig 1 1 true true) accept
    = ((SUCCESS, GLib_Error), Some img')
    /\ (1 = 1 ->
        exists hs,
          guides img' = [] ++ map HGuide hs ++ centre_guides 800 400 ++ border_guides 800 400
          /\ split_positions 400 1 hs)
    /\ (1 = 1 ->
        exists vs,
          guides img' = [] ++ map VGuide vs ++ centre_guides 800 400 ++ border_guides 800 400
          /\ split_positions 800 1 vs).
Proof.
  eexists. split; [vm_compute; reflexivity|].
  apply (no_split_guides_for_one_band NONINTERACTIVE (image0 800 400)
           (mkConfig 1 1 true true) accept (mkConfig 1 1 true true) GLib_Error).
  - reflexivity.
  - unfold well_formed, G_MAXINT; simpl; lia.
  - unfold in_range; simpl; lia.
  - vm_compute; reflexivity.
Defined.

(** C3: with [make_centre] set, a successful invocation on a well-formed
    image adds, after the split guides and before any border guide, exactly
    the vertical guide at [floor(W/2)] and the horizontal guide at
    [floor(H/2)], whatever the split counts and [draw_borders] are. *)
Theorem centre_guides_added mode img config dialog c err img' :
  show_dialog mode config dialog = Some c ->
  well_formed img -> in_range c ->
  make_centre c = true ->
  run_quick_guides mode (Some img) config dialog = ((SUCCESS, err), Some img') ->
  exists vs hs,
    guides img' = guides img ++ (map VGuide vs ++ map HGuide hs)
                  ++ [VGuide (width img / 2); HGuide (height img / 2)]
                  ++ (if draw_borders c then border_guides (width img) (height img) else [])
    /\ split_positions (width img) (v_split c) vs
    /\ split_positions (height img) (h_split c) hs.
Proof.
  intros Hd Hwf Hr Hmc Hrun.
  destruct (run_success_guides _ _ _ _ _ _ _ Hd Hwf Hr Hrun) as (vs & hs & Hg & Pv & Ph).
  rewrite Hmc in Hg. exists vs, hs. split; [|split; assumption].
  rewrite Hg, <- !app_assoc. reflexivity.
Qed.

Lemma centre_guides_added_witness :
  exists img',
    run_quick_guides NONINTERACTIVE (Some (image0 901 601)) (mkConfig 4 2 true true) accept
    = ((SUCCESS, GLib_Error), Some img')
    /\ exists vs hs,
         guides img' = [] ++ (map VGuide vs ++ map HGuide hs)
                       ++ [VGuide (901 / 2); HGuide (601 / 2)]
                       ++ border_guides 901 601
         /\ split_positions 901 2 vs
         /\ split_positions 601 4 hs.
Proof.
  eexists. split; [vm_compute; reflexivity|].
  apply (centre_guides_added NONINTERACTIVE (image0 901 601)
           (mkConfig 4 2 true true) accept (mkConfig 4 2 true true) GLib_Error).
  - reflexivity.
  - unfold well_formed, G_MAXINT; simpl; lia.
  - unfold in_range; simpl; lia.
  - reflexivity.
  - vm_compute; reflexivity.
Defined.

(** C4: with [draw_borders] set, a successful invocation ends by adding
    exactly the four border guides: vertical at 0, horizontal at 0, vertical
    at [W], horizontal at [H]; what precedes them is what the split and
    centre steps added. *)
Theorem border_guides_added mode img config dialog c err img' :
  show_dialog mode config dialog = Some c ->
  draw_borders c = true ->
  run_quick_guides mode (Some img) config dialog = ((SUCCESS, err), Some img') ->
  exists pre,
    guides img' = guides img ++ pre
                  ++ [VGuide 0; HGuide 0; VGuide (width img); HGuide (height img)]
    /\ map Some pre
       = split_plan VGuide (width img) (v_split c)
         ++ split_plan HGuide (height img) (h_split c)
         ++ (if make_centre c
             then [option_map VGuide (centre_pos (width img));
                   option_map HGuide (centre_pos (height img))]
             else []).
Proof.
  intros Hd Hdb Hrun.
  destruct (run_with_image _ _ _ _ _ _ _ Hd Hrun) as (img0 & E0 & Hon).
  injection E0 as <-.
  destruct (run_on_image_spec _ _ _ _ Hon) as (gs & fl & _ & _ & _ & Hg & _ & _ & Hcase).
  destruct Hcase as [(_ & _ & Hp & _)|(Hbad & _)]; [|discriminate].
  unfold plan in Hp. rewrite Hdb, !app_assoc in Hp. symmetry in Hp.
  apply map_Some_app_inv in Hp as (pre & b & -> & Epre & Eb).
  destruct b as [|b1 [|b2 [|b3 [|b4 [|]]]]]; try discriminate.
  cbn in Eb. injection Eb as <- <- <- <-.
  exists pre. split; [exact Hg|]. rewrite <- Epre, <- !app_assoc. reflexivity.
Qed.

Lemma border_guides_added_witness :
  exists img',
    run_quick_guides NONINTERACTIVE (Some (image0 800 400)) (mkConfig 1 1 false true) accept
    = ((SUCCESS, GLib_Error), Some img')
    /\ exists pre,
         guides img' = [] ++ pre ++ [VGuide 0; HGuide 0; VGuide 800; HGuide 400]
         /\ map Some pre = split_plan VGuide 800 1 ++ split_plan HGuide 400 1 ++ [].
Proof.
  eexists. split; [vm_compute; reflexivity|].
  apply (border_guides_added NONINTERACTIVE (image0 800 400)
           (mkConfig 1 1 false true) accept (mkConfig 1 1 false true) GLib_Error).
  - reflexivity.
  - reflexivity.
  - vm_compute; reflexivity.
Defined.



Lemma in_map_CallAdd c gs : In c (map CallAdd gs) -> exists g, c = CallAdd g /\ In g gs.
Proof. rewrite in_map_iff. intros (g & <- & Hg). eauto. Qed.

(** C6: when an insertion call raises, the procedure has opened the undo
    group, added the guides [gs] of the calls before the failing one, closes
    the group right after the failure and returns [EXECUTION_ERROR]; the
    guides [gs] are still on the image. *)
Theorem insertion_failure_keeps_guides mode img config dialog c r img' tr g :
  show_dialog mode config dialog = Some c ->
  run_quick_guides mode (Some img) config dialog = (r, Some img') ->
  trace img' = trace img ++ tr ->
  In (CallAddFailed g) tr ->
  r = (EXECUTION_ERROR, GLib_Error)
  /\ exists gs,
       tr = CallUndoGroupStart :: map CallAdd gs ++ [CallAddFailed g; CallUndoGroupEnd]
       /\ guides img' = guides img ++ gs.
Proof.
  intros Hd Hrun Htr Hin.
  destruct (run_with_image _ _ _ _ _ _ _ Hd Hrun) as (img0 & E0 & Hon).
  injection E0 as <-.
  destruct (run_on_image_spec _ _ _ _ Hon) as (gs & fl & _ & _ & _ & Hg & Ht & _ & Hcase).
  rewrite Ht in Htr. apply app_inv_head in Htr. subst tr.
  assert (Hfl : In (CallAddFailed g) fl).
  { destruct Hin as [Hin|Hin]; [discriminate|].
    apply in_app_or in Hin as [Hin|Hin].
    - apply in_map_CallAdd in Hin as (g0 & E & _). discriminate.
    - apply in_app_or in Hin as [Hin|[Hin|[]]]; [exact Hin|discriminate]. }
  destruct Hcase as [(_ & -> & _)|(-> & og & rest & _ & Hog)]; [destruct Hfl|].
  split; [reflexivity|]. exists gs. split; [|exact Hg].
  destruct og as [g0|].
  - destruct Hog as [-> _]. destruct Hfl as [E|[]]. injection E as ->. reflexivity.
  - subst fl. destruct Hfl.
Qed.

Lemma insertion_failure_keeps_guides_witness :
  (EXECUTION_ERROR, GLib_Error) = (EXECUTION_ERROR, GLib_Error)
  /\ exists gs,
       [CallUndoGroupStart; CallAdd (VGuide 300); CallAdd (VGuide 600);
        CallAddFailed (HGuide 200); CallUndoGroupEnd]
       = CallUndoGroupStart :: map CallAdd gs ++ [CallAddFailed (HGuide 200); CallUndoGroupEnd]
       /\ [VGuide 300; VGuide 600] = [] ++ gs.
Proof.
  apply (insertion_failure_keeps_guides NONINTERACTIVE
           (mkImage 900 600 [] [] 0 (fun n => Nat.eqb n 2))
           (mkConfig 3 3 true false) accept (mkConfig 3 3 true false)
           (EXECUTION_ERROR, GLib_Error)
           (mkImage 900 600 [VGuide 300; VGuide 600]
              [CallUndoGroupStart; CallAdd (VGuide 300); CallAdd (VGuide 600);
               CallAddFailed (HGuide 200); CallUndoGroupEnd]
              3 (fun n => Nat.eqb n 2))).
  - reflexivity.
  - vm_compute; reflexivity.
  - reflexivity.
  - simpl; auto.
Defined.

(** C7: whatever the outcome, the procedure either makes no call on the
    image at all (no image, or a dismissed dialog), or its calls are one
    [undo_group_start], then insertion calls only, then one
    [undo_group_end]: the group is opened before any insertion and closed
    exactly once, on the success path and on the error path. *)
Theorem undo_group_opened_and_closed mode image config dialog r image' :
  run_quick_guides mode image config dialog = (r, image') ->
  match image with
  | None => image' = None
  | Some img =>
      exists img', image' = Some img'
        /\ (img' = img /\ fst r = CANCEL
            \/ exists mid,
                 trace img' = trace img ++ CallUndoGroupStart :: mid ++ [CallUndoGroupEnd]
                 /\ Forall is_insertion mid
                 /\ (fst r = SUCCESS \/ fst r = EXECUTION_ERROR))
  end.
Proof.
  intros Hrun. destruct image as [img|].
  - destruct (show_dialog mode config dialog) as [c|] eqn:Hd.
    + destruct (run_with_image _ _ _ _ _ _ _ Hd Hrun) as (img' & -> & Hon).
      exists img'. split; [reflexivity|]. right.
      destruct (run_on_image_spec _ _ _ _ Hon) as (gs & fl & _ & _ & _ & _ & Ht & _ & Hcase).
      exists (map CallAdd gs ++ fl). rewrite <- app_assoc. split; [exact Ht|].
      split.
      * apply Forall_app. split.
        -- apply Forall_forall. intros x Hx.
           apply in_map_CallAdd in Hx as (g & -> & _). exact I.
        -- destruct Hcase as [(_ & -> & _)|(_ & [g|] & rest & _ & Hog)].
           ++ constructor.
           ++ destruct Hog as [-> _]. repeat constructor.
           ++ subst fl. constructor.
      * destruct Hcase as [(-> & _)|(-> & _)]; auto.
    + unfold run_quick_guides in Hrun. rewrite Hd in Hrun. injection Hrun as <- <-.
      exists img. split; [reflexivity|]. left. split; reflexivity.
  - unfold run_quick_guides in Hrun.
    destruct (show_dialog mode config dialog); injection Hrun as _ <-; reflexivity.
Qed.

Lemma undo_group_opened_and_closed_witness :
  exists img', Some (mkImage 900 600 [VGuide 300; VGuide 600]
           [CallUndoGroupStart; CallAdd (VGuide 300); CallAdd (VGuide 600);
            CallAddFailed (HGuide 200); CallUndoGroupEnd]
           3 (fun n => Nat.eqb n 2)) = Some img'
    /\ (img' = mkImage 900 600 [] [] 0 (fun n => Nat.eqb n 2)
        /\ fst (EXECUTION_ERROR, GLib_Error) = CANCEL
        \/ exists mid,
             trace img' = [] ++ CallUndoGroupStart :: mid ++ [CallUndoGroupEnd]
             /\ Forall is_insertion mid
             /\ (fst (EXECUTION_ERROR, GLib_Error) = SUCCESS
                 \/ fst (EXECUTION_ERROR, GLib_Error) = EXECUTION_ERROR)).
Proof.
  apply (undo_group_opened_and_closed NONINTERACTIVE
           (Some (mkImage 900 600 [] [] 0 (fun n => Nat.eqb n 2)))
           (mkConfig 3 3 true false) accept).
  vm_compute; reflexivity.
Defined.

Lemma planned_in_canvas W H config vs hs :
  0 < W <= G_MAXINT -> 0 < H <= G_MAXINT -> in_range config ->
  split_positions W (v_split config) vs ->
  split_positions H (h_split config) hs ->
  Forall (guide_in_canvas W H)
    (map VGuide vs ++ map HGuide hs
     ++ (if make_centre config then centre_guides W H else [])
     ++ (if draw_borders config then border_guides W H else [])).
Proof.
  intros HW HH [Hh Hv] Pv Ph.
  pose proof (split_positions_in_canvas W _ vs HW Hv Pv) as Fv.
  pose proof (split_positions_in_canvas H _ hs HH Hh Ph) as Fh.
  assert (0 <= W / 2 <= W).
  { split; [apply Z.div_pos; lia|]. apply Z.div_le_upper_bound; lia. }
  assert (0 <= H / 2 <= H).
  { split; [apply Z.div_pos; lia|]. apply Z.div_le_upper_bound; lia. }
  repeat (apply Forall_app; split).
  - apply Forall_map. eapply Forall_impl; [|exact Fv]. intros p Hp. exact Hp.
  - apply Forall_map. eapply Forall_impl; [|exact Fh]. intros p Hp. exact Hp.
  - destruct (make_centre config); repeat constructor; cbn; lia.
  - destruct (draw_borders config); repeat constructor; cbn; lia.
Qed.

Lemma map_Some_split {A} (l gs : list A) og rest :
  map Some l = map Some gs ++ og :: rest ->
  exists g rest', og = Some g /\ l = gs ++ g :: rest'.
Proof.
  intros E. apply map_Some_app_inv in E as (a & b & -> & Ea & Eb).
  apply map_Some_inj in Ea. subst a.
  destruct b as [|g b]; [discriminate|]. cbn in Eb. injection Eb as Eog _.
  exists g, b. auto.
Qed.

(** C8: on a well-formed image with both split counts in [1,100], every
    guide the procedure passes to the host, on the success path and on the
    error path, in an insertion that succeeds or in the one that raises, is
    at an integer position in [0, W] (vertical) or [0, H] (horizontal). *)
Theorem guide_positions_in_canvas mode img config dialog c r img' :
  show_dialog mode config dialog = Some c ->
  well_formed img -> in_range c ->
  run_quick_guides mode (Some img) config dialog = (r, Some img') ->
  exists tr,
    trace img' = trace img ++ tr
    /\ forall call g, In call tr -> call_guide call = Some g ->
         guide_in_canvas (width img) (height img) g.
Proof.
  intros Hd [HW HH] Hr Hrun.
  destruct (run_with_image _ _ _ _ _ _ _ Hd Hrun) as (img0 & E0 & Hon).
  injection E0 as <-.
  destruct (run_on_image_spec _ _ _ _ Hon) as (gs & fl & _ & _ & _ & _ & Ht & _ & Hcase).
  destruct (plan_spec _ _ c HW HH Hr) as (vs & hs & Ep & Pv & Ph).
  pose proof (planned_in_canvas _ _ c vs hs HW HH Hr Pv Ph) as Fall.
  rewrite Forall_forall in Fall.
  eexists. split; [exact Ht|].
  intros call g Hin Hcg.
  destruct Hin as [<-|Hin]; [discriminate|].
  apply in_app_or in Hin as [Hin|Hin].
  - apply in_map_CallAdd in Hin as (g0 & -> & Hg0). cbn in Hcg. injection Hcg as <-.
    apply Fall.
    destruct Hcase as [(_ & _ & Hp & _)|(_ & og & rest & Hp & _)]; rewrite Ep in Hp.
    + apply map_Some_inj in Hp. rewrite <- Hp in Hg0. exact Hg0.
    + apply map_Some_split in Hp as (g1 & rest' & _ & Epl).
      rewrite Epl. apply in_or_app. left. exact Hg0.
  - apply in_app_or in Hin as [Hin|[<-|[]]]; [|discriminate].
    destruct Hcase as [(_ & -> & _)|(_ & og & rest & Hp & Hog)]; [destruct Hin|].
    rewrite Ep in Hp. apply map_Some_split in Hp as (g1 & rest' & -> & Epl).
    destruct Hog as [-> _]. destruct Hin as [<-|[]].
    cbn in Hcg. injection Hcg as <-.
    apply Fall. rewrite Epl. apply in_or_app. right. left. reflexivity.
Qed.

Lemma guide_positions_in_canvas_witness :
  exists tr,
    [CallUndoGroupStart; CallAdd (VGuide 300); CallAdd (VGuide 600);
     CallAddFailed (HGuide 200); CallUndoGroupEnd] = [] ++ tr
    /\ forall call g, In call tr -> call_guide call = Some g ->
         guide_in_canvas 900 600 g.
Proof.
  apply (guide_positions_in_canvas NONINTERACTIVE
           (mkImage 900 600 [] [] 0 (fun n => Nat.eqb n 2))
           (mkConfig 3 3 true false) accept (mkConfig 3 3 true false)
           (EXECUTION_ERROR, GLib_Error)
           (mkImage 900 600 [VGuide 300; VGuide 600]
              [CallUndoGroupStart; CallAdd (VGuide 300); CallAdd (VGuide 600);
               CallAddFailed (HGuide 200); CallUndoGroupEnd]
              3 (fun n => Nat.eqb n 2))).
  - reflexivity.
  - unfold well_formed, G_MAXINT; simpl; lia.
  - unfold in_range; simpl; lia.
  - vm_compute; reflexivity.
Defined.

Lemma length_split_positions dim split ps :
  split_positions dim split ps -> length ps = Z.to_nat (split - 1).
Proof. intros [Hl _]. exact Hl. Qed.

Lemma length_planned_guides W H config vs hs :
  split_positions W (v_split config) vs ->
  split_positions H (h_split config) hs ->
  length (planned_guides W H config vs hs) = planned_count config.
Proof.
  intros Pv Ph. unfold planned_guides, planned_count.
  rewrite !length_app, !length_map.
  rewrite (length_split_positions _ _ _ Pv), (length_split_positions _ _ _ Ph).
  destruct (make_centre config), (draw_borders config); cbn; lia.
Qed.

(** C9: two successful invocations in sequence with the same parameters,
    on a well-formed image with split counts in range, each append the
    whole list of guides the parameters ask for: the
    [(v_split - 1) + (h_split - 1)] split guides, the centre pair if
    [make_centre], the four border guides if [draw_borders].  The second
    adds again every guide the first added, so the two together add twice
    as many guides as one, and as soon as the parameters ask for one guide
    the second invocation changes the image again: the operation is not
    idempotent. *)
Theorem second_invocation_duplicates mode img config dialog c e1 e2 img1 img2 :
  show_dialog mode config dialog = Some c ->
  well_formed img -> in_range c ->
  run_quick_guides mode (Some img) config dialog = ((SUCCESS, e1), Some img1) ->
  run_quick_guides mode (Some img1) config dialog = ((SUCCESS, e2), Some img2) ->
  exists vs hs,
    split_positions (width img) (v_split c) vs
    /\ split_positions (height img) (h_split c) hs
    /\ guides img1
       = guides img ++ planned_guides (width img) (height img) c vs hs
    /\ guides img2
       = guides img ++ planned_guides (width img) (height img) c vs hs
                    ++ planned_guides (width img) (height img) c vs hs
    /\ length (planned_guides (width img) (height img) c vs hs) = planned_count c
    /\ (length (guides img1) = length (guides img) + planned_count c)%nat
    /\ (length (guides img2) = length (guides img) + 2 * planned_count c)%nat
    /\ (length (guides img2) - length (guides img)
        = 2 * (length (guides img1) - length (guides img)))%nat
    /\ (planned_count c <> 0%nat -> guides img2 <> guides img1).
Proof.
  intros Hd [HW HH] Hr Hrun1 Hrun2.
  destruct (run_with_image _ _ _ _ _ _ _ Hd Hrun1) as (i1 & E1 & Hon1).
  destruct (run_with_image _ _ _ _ _ _ _ Hd Hrun2) as (i2 & E2 & Hon2).
  injection E1 as <-. injection E2 as <-.
  destruct (run_on_image_spec _ _ _ _ Hon1) as (gs & fl & Hw & Hh & _ & Hg & _ & _ & Hcase).
  destruct (run_on_image_spec _ _ _ _ Hon2) as (gs' & fl' & _ & _ & _ & Hg' & _ & _ & Hcase').
  destruct Hcase as [(_ & _ & Hp & _)|(Hbad & _)]; [|discriminate].
  destruct Hcase' as [(_ & _ & Hp' & _)|(Hbad & _)]; [|discriminate].
  rewrite Hw, Hh, Hp in Hp'. apply map_Some_inj in Hp'. subst gs'.
  destruct (plan_spec _ _ c HW HH Hr) as (vs & hs & Ep & Pv & Ph).
  pose proof (length_planned_guides _ _ c vs hs Pv Ph) as Hlen.
  fold (planned_guides (width img) (height img) c vs hs) in Ep.
  rewrite Ep in Hp. apply map_Some_inj in Hp. subst gs.
  exists vs, hs. split; [exact Pv|]. split; [exact Ph|]. split; [exact Hg|].
  rewrite Hg', Hg, <- app_assoc. split; [reflexivity|]. split; [exact Hlen|].
  rewrite !length_app, Hlen.
  split; [reflexivity|]. split; [lia|]. split; [lia|].
  intros Hne E. apply (f_equal (@length _)) in E.
  rewrite !length_app, Hlen in E. lia.
Qed.

Lemma second_invocation_duplicates_witness :
  exists img1 img2,
    run_quick_guides NONINTERACTIVE (Some (image0 900 600)) (mkConfig 3 3 true false) accept
    = ((SUCCESS, GLib_Error), Some img1)
    /\ run_quick_guides NONINTERACTIVE (Some img1) (mkConfig 3 3 true false) accept
       = ((SUCCESS, GLib_Error), Some img2)
    /\ exists vs hs,
         split_positions 900 3 vs
         /\ split_positions 600 3 hs
         /\ guides img1 = [] ++ planned_guides 900 600 (mkConfig 3 3 true false) vs hs
         /\ guides img2 = [] ++ planned_guides 900 600 (mkConfig 3 3 true false) vs hs
                            ++ planned_guides 900 600 (mkConfig 3 3 true false) vs hs
         /\ length (planned_guides 900 600 (mkConfig 3 3 true false) vs hs)
            = planned_count (mkConfig 3 3 true false)
         /\ (length (guides img1)
             = length (@nil Guide) + planned_count (mkConfig 3 3 true false))%nat
         /\ (length (guides img2)
             = length (@nil Guide) + 2 * planned_count (mkConfig 3 3 true false))%nat
         /\ (length (guides img2) - length (@nil Guide)
             = 2 * (length (guides img1) - length (@nil Guide)))%nat
         /\ (planned_count (mkConfig 3 3 true false) <> 0%nat ->
             guides img2 <> guides img1).
Proof.
  eexists. eexists. split; [vm_compute; reflexivity|].
  split; [vm_compute; reflexivity|].
  apply (second_invocation_duplicates NONINTERACTIVE (image0 900 600)
           (mkConfig 3 3 true false) accept (mkConfig 3 3 true false)
           GLib_Error GLib_Error).
  - reflexivity.
  - unfold well_formed, G_MAXINT; simpl; lia.
  - unfold in_range; simpl; lia.
  - vm_compute; reflexivity.
  - vm_compute; reflexivity.
Defined.

(** C10: on every return path the error that accompanies the status is
    [GLib.Error()] constructed with no argument: no message, domain or
    code is attached. *)
Theorem error_is_always_empty mode image config dialog :
  snd (fst (run_quick_guides mode image config dialog)) = GLib_Error.
Proof.
  unfold run_quick_guides.
  destruct (show_dialog mode config dialog) as [c|]; [|reflexivity].
  destruct image as [img|]; [|reflexivity].
  unfold run_on_image.
  destruct (add_all_guides (width img) (height img) c (undo_group_start img))
    as [[[]|] mid]; reflexivity.
Qed.

(** When the host refuses no insertion, the invocation succeeds. *)
Lemma run_succeeds mode img config dialog c :
  show_dialog mode config dialog = Some c ->
  well_formed img -> in_range c ->
  (forall n, faults img n = false) ->
  fst (fst (run_quick_guides mode (Some img) config dialog)) = SUCCESS.
Proof.
  intros Hd [HW HH] Hr Hnf.
  destruct (run_quick_guides mode (Some img) config dialog) as [r image'] eqn:Hrun.
  destruct (run_with_image _ _ _ _ _ _ _ Hd Hrun) as (img' & -> & Hon).
  destruct (run_on_image_spec _ _ _ _ Hon) as (gs & fl & _ & _ & _ & _ & _ & _ & Hcase).
  destruct Hcase as [(-> & _)|(_ & og & rest & Hp & Hog)]; [reflexivity|exfalso].
  destruct (plan_spec _ _ c HW HH Hr) as (vs & hs & Ep & _).
  rewrite Ep in Hp. apply map_Some_split in Hp as (g & rest' & -> & _).
  destruct Hog as [_ Hf]. rewrite Hnf in Hf. discriminate.
Qed.

(** * Further properties of the procedure *)

(** * The dialog *)

(** X1: outside interactive mode the dialog is never consulted: the
    result and the image left do not depend on it. *)
Theorem dialog_ignored_unless_interactive mode image config dialog1 dialog2 :
  mode <> INTERACTIVE ->
  run_quick_guides mode image config dialog1
  = run_quick_guides mode image config dialog2.
Proof.
  intros Hm. unfold run_quick_guides, show_dialog.
  destruct mode; [congruence| |]; reflexivity.
Qed.

Lemma dialog_ignored_unless_interactive_witness :
  run_quick_guides WITH_LAST_VALS (Some (image0 900 600)) (mkConfig 3 3 true false) accept
  = run_quick_guides WITH_LAST_VALS (Some (image0 900 600)) (mkConfig 3 3 true false) dismiss.
Proof.
  apply (dialog_ignored_unless_interactive WITH_LAST_VALS). discriminate.
Defined.

(** X2: an interactive run whose dialog is confirmed behaves exactly as
    a non-interactive run on the configuration the dialog left, not on the
    one passed in. *)
Theorem confirmed_dialog_runs_edited_configuration image config dialog config' any :
  dialog config = (true, config') ->
  run_quick_guides INTERACTIVE image config dialog
  = run_quick_guides NONINTERACTIVE image config' any.
Proof.
  intros Hd. unfold run_quick_guides, show_dialog. rewrite Hd. reflexivity.
Qed.

Lemma confirmed_dialog_runs_edited_configuration_witness :
  run_quick_guides INTERACTIVE (Some (image0 900 600)) (mkConfig 3 3 true false)
    (fun c => (true, mkConfig 4 (v_split c) false true))
  = run_quick_guides NONINTERACTIVE (Some (image0 900 600)) (mkConfig 4 3 false true) dismiss.
Proof.
  apply (confirmed_dialog_runs_edited_configuration (Some (image0 900 600))
           (mkConfig 3 3 true false)
           (fun c => (true, mkConfig 4 (v_split c) false true))).
  reflexivity.
Defined.

(** X3: an interactive run whose dialog is dismissed returns [CANCEL]
    and hands the image, present or not, back untouched: no undo group, no
    insertion. *)
Theorem dismissed_dialog_cancels image config dialog :
  fst (dialog config) = false ->
  run_quick_guides INTERACTIVE image config dialog = ((CANCEL, GLib_Error), image).
Proof.
  intros Hd. unfold run_quick_guides, show_dialog.
  destruct (dialog config) as [ok c']. cbn in Hd. subst ok. reflexivity.
Qed.

Lemma dismissed_dialog_cancels_witness :
  run_quick_guides INTERACTIVE (Some (image0 900 600)) (mkConfig 3 3 true true) dismiss
  = ((CANCEL, GLib_Error), Some (image0 900 600)).
Proof.
  apply (dismissed_dialog_cancels (Some (image0 900 600)) (mkConfig 3 3 true true) dismiss).
  reflexivity.
Defined.

(** * What a run leaves on the image *)

Lemma added_by_app t1 t2 : added_by (t1 ++ t2) = added_by t1 ++ added_by t2.
Proof. unfold added_by. apply flat_map_app. Qed.

Lemma added_by_CallAdd gs : added_by (map CallAdd gs) = gs.
Proof.
  induction gs as [|g gs IH]; [reflexivity|]. cbn. unfold added_by in IH.
  rewrite IH. reflexivity.
Qed.

Lemma insertions_of_CallAdd gs :
  length (filter insertion_call (map CallAdd gs)) = length gs.
Proof. induction gs as [|g gs IH]; [reflexivity|]. cbn. rewrite IH. reflexivity. Qed.

(** X10: on every path the procedure only appends: width, height and the
    host are left as they were, the old guides and the old trace are
    prefixes of the new ones, the guides added are those of the insertion
    calls that succeeded, in call order, and every insertion call counts
    once. *)
Theorem run_only_appends mode img config dialog r img' :
  run_quick_guides mode (Some img) config dialog = (r, Some img') ->
  width img' = width img /\ height img' = height img /\ faults img' = faults img
  /\ exists tr,
       trace img' = trace img ++ tr
       /\ guides img' = guides img ++ added_by tr
       /\ (attempts img' = attempts img + length (filter insertion_call tr))%nat.
Proof.
  intros Hrun.
  destruct (show_dialog mode config dialog) as [c|] eqn:Hd.
  - destruct (run_with_image _ _ _ _ _ _ _ Hd Hrun) as (i & E & Hon). injection E as <-.
    destruct (run_on_image_spec _ _ _ _ Hon)
      as (gs & fl & Hw & Hh & Hf & Hg & Ht & Ha & Hcase).
    repeat split; try assumption.
    eexists. split; [exact Ht|].
    assert (Efl : added_by fl = []
                  /\ length (filter insertion_call fl) = length fl).
    { destruct Hcase as [(_ & -> & _)|(_ & [g|] & rest & _ & Hog)].
      - split; reflexivity.
      - destruct Hog as [-> _]. split; reflexivity.
      - subst fl. split; reflexivity. }
    destruct Efl as [Efl Lfl].
    change (CallUndoGroupStart :: map CallAdd gs ++ fl ++ [CallUndoGroupEnd])
      with ([CallUndoGroupStart] ++ map CallAdd gs ++ fl ++ [CallUndoGroupEnd]).
    rewrite !added_by_app, added_by_CallAdd, Efl.
    rewrite !filter_app, !length_app, Lfl, insertions_of_CallAdd.
    cbn. rewrite app_nil_r. split; [exact Hg|lia].
  - unfold run_quick_guides in Hrun. rewrite Hd in Hrun. injection Hrun as _ <-.
    repeat split. exists []. rewrite !app_nil_r. cbn. repeat split. lia.
Qed.

Lemma run_only_appends_witness :
  exists img',
    run_quick_guides NONINTERACTIVE
      (Some (mkImage 900 600 [HGuide 7] [] 0 (fun n => Nat.eqb n 2)))
      (mkConfig 3 3 true false) accept
    = ((EXECUTION_ERROR, GLib_Error), Some img')
    /\ width img' = 900 /\ height img' = 600 /\ faults img' = (fun n => Nat.eqb n 2)
    /\ exists tr,
         trace img' = [] ++ tr
         /\ guides img' = [HGuide 7] ++ added_by tr
         /\ (attempts img' = 0 + length (filter insertion_call tr))%nat.
Proof.
  eexists. split; [vm_compute; reflexivity|].
  apply (run_only_appends NONINTERACTIVE
           (mkImage 900 600 [HGuide 7] [] 0 (fun n => Nat.eqb n 2))
           (mkConfig 3 3 true false) accept (EXECUTION_ERROR, GLib_Error)).
  vm_compute; reflexivity.
Defined.

(** * Which insertions happen *)

Lemma exec_no_fault planned : forall img,
  (forall j, (j < length planned)%nat -> faults img (attempts img + j)%nat = false) ->
  exists img', exec (map Some planned) img = (Returned tt, img')
    /\ extends img img' planned [].
Proof.
  intros img Hnf.
  destruct (exec (map Some planned) img) as [o img'] eqn:E.
  pose proof (exec_spec _ _ _ _ E) as S. destruct o as [[]|].
  - destruct S as (gs & Egs & Hx & _). apply map_Some_inj in Egs. subst gs. eauto.
  - exfalso. destruct S as (gs & og & rest & Egs & Hog).
    apply map_Some_split in Egs as (g & rest' & -> & ->).
    destruct Hog as [_ Hf]. rewrite Hnf in Hf; [discriminate|].
    rewrite length_app. cbn. lia.
Qed.

Lemma exec_first_fault planned : forall img n g,
  nth_error planned n = Some g ->
  (forall j, (j < n)%nat -> faults img (attempts img + j)%nat = false) ->
  faults img (attempts img + n)%nat = true ->
  exists img', exec (map Some planned) img = (Raised, img')
    /\ extends img img' (firstn n planned) [CallAddFailed g].
Proof.
  induction planned as [|g0 planned IH]; intros img n g Hn Hnf Hf.
  - destruct n; discriminate.
  - cbn [map exec for_in]. unfold bind at 1. unfold step, of_option, bind, ret, add_guide.
    destruct n as [|n].
    + cbn in Hn. injection Hn as ->. rewrite Nat.add_0_r in Hf. rewrite Hf.
      eexists. split; [reflexivity|]. unfold extends. cbn. rewrite app_nil_r.
      repeat split; lia.
    + cbn in Hn. pose proof (Hnf 0%nat ltac:(lia)) as H0. rewrite Nat.add_0_r in H0.
      rewrite H0.
      set (img1 := mkImage (width img) (height img) (guides img ++ [g0])
                     (trace img ++ [CallAdd g0]) (S (attempts img)) (faults img)).
      destruct (IH img1 n g Hn) as (img' & E & Hx).
      * intros j Hj. cbn. specialize (Hnf (S j) ltac:(lia)).
        replace (attempts img + S j)%nat with (S (attempts img + j)) in Hnf by lia.
        exact Hnf.
      * cbn. replace (attempts img + S n)%nat with (S (attempts img + n)) in Hf by lia.
        exact Hf.
      * exists img'. split; [exact E|].
        unfold extends in *. cbn in *.
        destruct Hx as (-> & -> & -> & -> & -> & ->).
        rewrite <- !app_assoc. cbn. repeat split; lia.
Qed.

(** X6: on a well-formed image with split counts in range, the invocation
    returns [SUCCESS] exactly when the host refuses none of the
    [(v_split - 1) + (h_split - 1) + 2*make_centre + 4*draw_borders]
    insertion calls it makes. *)
Theorem success_iff_no_refusal mode img config dialog c :
  show_dialog mode config dialog = Some c ->
  well_formed img -> in_range c ->
  (fst (fst (run_quick_guides mode (Some img) config dialog)) = SUCCESS
   <-> forall j, (j < planned_count c)%nat -> faults img (attempts img + j)%nat = false).
Proof.
  intros Hd [HW HH] Hr.
  destruct (plan_spec _ _ c HW HH Hr) as (vs & hs & Ep & Pv & Ph).
  pose proof (length_planned_guides _ _ c vs hs Pv Ph) as Hlen.
  fold (planned_guides (width img) (height img) c vs hs) in Ep.
  destruct (run_quick_guides mode (Some img) config dialog) as [r image'] eqn:Hrun.
  destruct (run_with_image _ _ _ _ _ _ _ Hd Hrun) as (img' & -> & Hon).
  destruct (run_on_image_spec _ _ _ _ Hon) as (gs & fl & _ & _ & _ & _ & _ & _ & Hcase).
  cbn [fst]. split.
  - intros Hs j Hj.
    destruct Hcase as [(_ & _ & Hp & Hnf)|(-> & _)]; [|discriminate].
    rewrite Ep in Hp. apply map_Some_inj in Hp. subst gs.
    apply Hnf. lia.
  - intros Hnf.
    destruct Hcase as [(-> & _)|(_ & og & rest & Hp & Hog)]; [reflexivity|exfalso].
    rewrite Ep in Hp. apply map_Some_split in Hp as (g & rest' & -> & Epl).
    destruct Hog as [_ Hf]. rewrite Hnf in Hf; [discriminate|].
    rewrite <- Hlen, Epl, length_app. cbn. lia.
Qed.

Lemma success_iff_no_refusal_witness :
  fst (fst (run_quick_guides NONINTERACTIVE
              (Some (mkImage 900 600 [] [] 0 (fun n => Nat.eqb n 6)))
              (mkConfig 3 3 true false) accept)) = SUCCESS
  <-> forall j, (j < planned_count (mkConfig 3 3 true false))%nat ->
        Nat.eqb (0 + j) 6 = false.
Proof.
  apply (success_iff_no_refusal NONINTERACTIVE
           (mkImage 900 600 [] [] 0 (fun n => Nat.eqb n 6))
           (mkConfig 3 3 true false) accept (mkConfig 3 3 true false)).
  - reflexivity.
  - unfold well_formed, G_MAXINT; simpl; lia.
  - unfold in_range; simpl; lia.
Defined.

(** X4: a successful invocation adds exactly
    [(v_split - 1) + (h_split - 1)] split guides, plus 2 with [make_centre]
    and 4 with [draw_borders]; it makes that many insertion calls, and two
    undo calls around them. *)
Theorem success_adds_planned_count mode img config dialog c err img' :
  show_dialog mode config dialog = Some c ->
  well_formed img -> in_range c ->
  run_quick_guides mode (Some img) config dialog = ((SUCCESS, err), Some img') ->
  length (guides img') = (length (guides img) + planned_count c)%nat
  /\ attempts img' = (attempts img + planned_count c)%nat
  /\ length (trace img') = (length (trace img) + planned_count c + 2)%nat.
Proof.
  intros Hd [HW HH] Hr Hrun.
  destruct (run_with_image _ _ _ _ _ _ _ Hd Hrun) as (i & E & Hon). injection E as <-.
  destruct (run_on_image_spec _ _ _ _ Hon) as (gs & fl & _ & _ & _ & Hg & Ht & Ha & Hcase).
  destruct Hcase as [(_ & -> & Hp & _)|(Hbad & _)]; [|discriminate].
  destruct (plan_spec _ _ c HW HH Hr) as (vs & hs & Ep & Pv & Ph).
  pose proof (length_planned_guides _ _ c vs hs Pv Ph) as Hlen.
  fold (planned_guides (width img) (height img) c vs hs) in Ep.
  rewrite Ep in Hp. apply map_Some_inj in Hp. subst gs.
  rewrite Hg, Ht, Ha, !length_app. cbn [length]. rewrite !length_app, length_map.
  cbn [length]. lia.
Qed.

Lemma success_adds_planned_count_witness :
  exists img',
    run_quick_guides NONINTERACTIVE (Some (image0 1920 1080)) (mkConfig 4 5 true true) accept
    = ((SUCCESS, GLib_Error), Some img')
    /\ length (guides img') = (0 + planned_count (mkConfig 4 5 true true))%nat
    /\ attempts img' = (0 + planned_count (mkConfig 4 5 true true))%nat
    /\ length (trace img') = (0 + planned_count (mkConfig 4 5 true true) + 2)%nat.
Proof.
  eexists. split; [vm_compute; reflexivity|].
  apply (success_adds_planned_count NONINTERACTIVE (image0 1920 1080)
           (mkConfig 4 5 true true) accept (mkConfig 4 5 true true) GLib_Error).
  - reflexivity.
  - unfold well_formed, G_MAXINT; simpl; lia.
  - unfold in_range; simpl; lia.
  - vm_compute; reflexivity.
Defined.

(** X5: when the first insertion the host refuses is call number [n] of
    the run, the procedure returns [EXECUTION_ERROR], the image keeps
    exactly the first [n] guides of a complete run, in order, and the calls
    are the group start, those [n] insertions, the refused one and the group
    end. *)
Theorem first_refusal_keeps_prefix mode img config dialog c n :
  show_dialog mode config dialog = Some c ->
  well_formed img -> in_range c ->
  (n < planned_count c)%nat ->
  (forall j, (j < n)%nat -> faults img (attempts img + j)%nat = false) ->
  faults img (attempts img + n)%nat = true ->
  exists vs hs g img',
    split_positions (width img) (v_split c) vs
    /\ split_positions (height img) (h_split c) hs
    /\ nth_error (planned_guides (width img) (height img) c vs hs) n = Some g
    /\ run_quick_guides mode (Some img) config dialog
       = ((EXECUTION_ERROR, GLib_Error), Some img')
    /\ guides img' = guides img
                     ++ firstn n (planned_guides (width img) (height img) c vs hs)
    /\ trace img' = trace img ++ CallUndoGroupStart
                    :: map CallAdd (firstn n (planned_guides (width img) (height img) c vs hs))
                    ++ [CallAddFailed g; CallUndoGroupEnd].
Proof.
  intros Hd [HW HH] Hr Hn Hnf Hf.
  destruct (plan_spec _ _ c HW HH Hr) as (vs & hs & Ep & Pv & Ph).
  pose proof (length_planned_guides _ _ c vs hs Pv Ph) as Hlen.
  fold (planned_guides (width img) (height img) c vs hs) in Ep.
  set (pl := planned_guides (width img) (height img) c vs hs) in *.
  destruct (nth_error pl n) as [g|] eqn:Eg;
    [|apply nth_error_None in Eg; lia].
  destruct (exec_first_fault pl (undo_group_start img) n g Eg Hnf Hf)
    as (mid & Ex & (Hw & Hh & Hfa & Hg & Ht & Ha)).
  exists vs, hs, g, (undo_group_end mid).
  split; [exact Pv|]. split; [exact Ph|]. split; [exact Eg|].
  split; [|split].
  - unfold run_quick_guides. rewrite Hd. unfold run_on_image.
    rewrite add_all_guides_exec, Ep, Ex. reflexivity.
  - cbn. exact Hg.
  - cbn. rewrite Ht. cbn. rewrite <- !app_assoc. reflexivity.
Qed.

Lemma first_refusal_keeps_prefix_witness :
  exists vs hs g img',
    split_positions 900 3 vs
    /\ split_positions 600 3 hs
    /\ nth_error (planned_guides 900 600 (mkConfig 3 3 true false) vs hs) 2 = Some g
    /\ run_quick_guides NONINTERACTIVE
         (Some (mkImage 900 600 [] [] 0 (fun n => Nat.eqb n 2)))
         (mkConfig 3 3 true false) accept
       = ((EXECUTION_ERROR, GLib_Error), Some img')
    /\ guides img' = [] ++ firstn 2 (planned_guides 900 600 (mkConfig 3 3 true false) vs hs)
    /\ trace img' = [] ++ CallUndoGroupStart
                    :: map CallAdd (firstn 2 (planned_guides 900 600 (mkConfig 3 3 true false) vs hs))
                    ++ [CallAddFailed g; CallUndoGroupEnd].
Proof.
  apply (first_refusal_keeps_prefix NONINTERACTIVE
           (mkImage 900 600 [] [] 0 (fun n => Nat.eqb n 2))
           (mkConfig 3 3 true false) accept (mkConfig 3 3 true false) 2).
  - reflexivity.
  - unfold well_formed, G_MAXINT; simpl; lia.
  - unfold in_range; simpl; lia.
  - vm_compute; lia.
  - intros [|[|j]] Hj; try reflexivity; lia.
  - reflexivity.
Defined.

(** * More on the split positions *)

Lemma half_unit_zero X : 2 * Z.abs X <= 1 -> X = 0.
Proof. lia. Qed.

(** X7: when the split count divides the dimension, the rounding does not
    show: the [k]-th split guide is exactly at [k * (dim / split)]. *)
Theorem guide_pos_exact_when_divisible W v k :
  0 < W <= G_MAXINT -> 0 < v <= 100 -> 0 < k <= 100 ->
  W mod v = 0 ->
  guide_pos W v (k - 1) = Some (W / v * k).
Proof.
  intros HW Hv Hk Hmod.
  destruct (truediv_spec W v HW ltac:(unfold G_MAXINT; lia)) as (mx & E & Etd & Bx & HE & HD).
  destruct (guide_pos_num W v mx E k HW Hv Hk Etd Bx HE HD)
    as (Hh & HhE & HH & m2 & Eg & HR & _).
  set (h := Z.log2 (Zpos mx * k) - 52) in *.
  assert (HP : 2 ^ E = 2 ^ (E - h) * 2 ^ h)
    by (rewrite <- Z.pow_add_r by lia; f_equal; lia).
  assert (PH : 0 < 2 ^ h) by (apply pow2_pos; lia).
  assert (PT : 0 < 2 ^ (E - h)) by (apply pow2_pos; lia).
  set (q := W / v).
  assert (EW : W = v * q) by (apply Z_div_exact_full_2; lia).
  assert (Emx : Zpos mx = q * 2 ^ E).
  { assert (Zpos mx - q * 2 ^ E = 0); [|lia].
    apply half_unit_zero. apply (cancel_bound v); [lia|].
    replace (v * (Zpos mx - q * 2 ^ E)) with (Zpos mx * v - W * 2 ^ E)
      by (rewrite EW at 1; ring).
    lia. }
  assert (Em2 : m2 = q * k * 2 ^ (E - h)).
  { assert (m2 - q * k * 2 ^ (E - h) = 0); [|lia].
    apply half_unit_zero. apply (cancel_bound (2 ^ h)); [exact PH|].
    replace (2 ^ h * (m2 - q * k * 2 ^ (E - h))) with (m2 * 2 ^ h - Zpos mx * k)
      by (rewrite Emx, HP; ring).
    lia. }
  rewrite Eg, Em2, Z.div_mul by lia. reflexivity.
Qed.

Lemma guide_pos_exact_when_divisible_witness :
  guide_pos 1920 (5) (3 - 1) = Some (1920 / 5 * 3).
Proof.
  apply (guide_pos_exact_when_divisible 1920 5 3).
  - unfold G_MAXINT; lia.
  - lia.
  - lia.
  - reflexivity.
Defined.

(** X8: a split guide never lies on the far border ([p < dim]), and when
    there are at least as many pixels as bands ([split <= dim]) it does not
    lie on the near border either ([0 < p]). *)
Theorem split_guides_inside_canvas W v k :
  0 < W <= G_MAXINT -> 2 <= v <= 100 -> 1 <= k < v ->
  exists p, guide_pos W v (k - 1) = Some p
    /\ 0 <= p < W
    /\ (v <= W -> 0 < p).
Proof.
  intros HW Hv Hk.
  destruct (guide_pos_floor W v k HW ltac:(lia) ltac:(lia)) as (p & Ep & [Hlo Hhi] & Hx).
  exists p. split; [exact Ep|].
  assert (HWk : 0 < W * k) by (apply Z.mul_pos_pos; lia).
  assert (Hq : W * k / v < W).
  { apply Z.div_lt_upper_bound; [lia|].
    rewrite (Z.mul_comm v W). apply Z.mul_lt_mono_pos_l; lia. }
  assert (Hq0 : 0 <= W * k / v) by (apply Z.div_pos; lia).
  destruct (Z.eq_dec ((W * k) mod v) 0) as [Hz|Hnz].
  - pose proof (Z.div_mod (W * k) v ltac:(lia)) as Edm. rewrite Hz in Edm.
    assert (Hq1 : 1 <= W * k / v).
    { destruct (Z_lt_le_dec 0 (W * k / v)) as [|Hle]; [lia|exfalso].
      assert (v * (W * k / v) <= v * 0) by (apply Z.mul_le_mono_nonneg_l; lia). lia. }
    split; [lia|]. intros HvW.
    destruct (Z.eq_dec (W * k / v) 1) as [E1|]; [|lia].
    (* then W * k = v, so k = 1 and W = v: the quotient is exact *)
    rewrite E1 in Edm.
    assert (k = 1).
    { destruct (Z.eq_dec k 1); [assumption|exfalso].
      assert (W * 2 <= W * k) by (apply Z.mul_le_mono_nonneg_l; lia). lia. }
    subst k.
    pose proof (guide_pos_exact_when_divisible W v 1 HW ltac:(lia) ltac:(lia)) as Ex.
    assert (W = v) by lia. subst W.
    rewrite Z.mod_same, Z.div_same in Ex by lia. specialize (Ex eq_refl).
    rewrite Ep in Ex. injection Ex as ->. lia.
  - rewrite (Hx Hnz). split; [lia|]. intros HvW.
    assert (1 <= W * k / v); [|lia].
    apply Z.div_le_lower_bound; [lia|].
    assert (W * 1 <= W * k) by (apply Z.mul_le_mono_nonneg_l; lia). lia.
Qed.

Lemma split_guides_inside_canvas_witness :
  exists p, guide_pos 30 22 (11 - 1) = Some p /\ 0 <= p < 30 /\ (22 <= 30 -> 0 < p).
Proof.
  apply (split_guides_inside_canvas 30 22 11).
  - unfold G_MAXINT; lia.
  - lia.
  - lia.
Defined.

(** X9: with two bands the single split guide is at the very position of
    the centre guide, [floor(dim / 2)], so [make_centre] then duplicates
    it. *)
Theorem two_bands_split_at_centre dim :
  0 < dim <= G_MAXINT ->
  guide_pos dim 2 0 = Some (dim / 2) /\ centre_pos dim = Some (dim / 2).
Proof.
  intros Hd. split; [|apply centre_pos_spec; exact Hd].
  destruct (Z.eq_dec (dim mod 2) 0) as [Hz|Hnz].
  - pose proof (guide_pos_exact_when_divisible dim 2 1 Hd ltac:(lia) ltac:(lia) Hz) as Ex.
    rewrite Z.mul_1_r in Ex. exact Ex.
  - destruct (guide_pos_floor dim 2 1 Hd ltac:(lia) ltac:(lia)) as (p & Ep & _ & Hx).
    rewrite Z.mul_1_r in Hx. rewrite (Hx Hnz) in Ep. exact Ep.
Qed.

Lemma two_bands_split_at_centre_witness :
  guide_pos 901 2 0 = Some (901 / 2) /\ centre_pos 901 = Some (901 / 2).
Proof.
  apply (two_bands_split_at_centre 901). unfold G_MAXINT; lia.
Defined.

(** * The guides already on the image are not read *)

Lemma exec_same_host l : forall i1 i2,
  attempts i1 = attempts i2 -> faults i1 = faults i2 ->
  exists o j1 j2 gs fl,
    exec l i1 = (o, j1) /\ exec l i2 = (o, j2)
    /\ extends i1 j1 gs fl /\ extends i2 j2 gs fl.
Proof.
  induction l as [|og l IH]; intros i1 i2 Ha Hf.
  - exists (Returned tt), i1, i2, [], []. repeat split; try reflexivity;
      unfold extends; cbn; rewrite ?app_nil_r; repeat split; lia.
  - cbn [exec for_in]. unfold bind at 1 2. destruct og as [g|].
    + unfold step, of_option, bind, ret, add_guide. rewrite <- Hf, <- Ha.
      destruct (faults i1 (attempts i1)) eqn:Ef.
      * eexists Raised, _, _, [], [CallAddFailed g].
        split; [reflexivity|]. split; [reflexivity|].
        split; unfold extends; cbn; rewrite ?app_nil_r; repeat split; try lia; auto.
      * set (k1 := mkImage (width i1) (height i1) (guides i1 ++ [g])
                     (trace i1 ++ [CallAdd g]) (S (attempts i1)) (faults i1)).
        set (k2 := mkImage (width i2) (height i2) (guides i2 ++ [g])
                     (trace i2 ++ [CallAdd g]) (S (attempts i1)) (faults i1)).
        destruct (IH k1 k2 eq_refl eq_refl) as (o & j1 & j2 & gs & fl & E1 & E2 & X1 & X2).
        exists o, j1, j2, (g :: gs), fl. unfold exec in E1, E2.
        split; [exact E1|]. split; [exact E2|].
        unfold extends in *. cbn in *.
        destruct X1 as (-> & -> & -> & -> & -> & ->).
        destruct X2 as (-> & -> & -> & -> & -> & ->).
        rewrite <- !app_assoc. cbn. repeat split; try lia; auto.
    + unfold step, of_option, bind, raise.
      exists Raised, i1, i2, [], []. repeat split; try reflexivity;
        unfold extends; cbn; rewrite ?app_nil_r; repeat split; lia.
Qed.

(** X11: the guides already on the image are not read: two images that
    differ only in their guides and past calls get the same status, the same
    guides added and the same calls. *)
Theorem existing_guides_not_read mode img1 img2 config dialog r1 r2 j1 j2 :
  width img1 = width img2 -> height img1 = height img2 ->
  attempts img1 = attempts img2 -> faults img1 = faults img2 ->
  run_quick_guides mode (Some img1) config dialog = (r1, Some j1) ->
  run_quick_guides mode (Some img2) config dialog = (r2, Some j2) ->
  r1 = r2
  /\ exists gs tr,
       guides j1 = guides img1 ++ gs /\ guides j2 = guides img2 ++ gs
       /\ trace j1 = trace img1 ++ tr /\ trace j2 = trace img2 ++ tr.
Proof.
  intros Hw Hh Ha Hf Hrun1 Hrun2.
  unfold run_quick_guides in *.
  destruct (show_dialog mode config dialog) as [c|].
  - unfold run_on_image in *. rewrite !add_all_guides_exec in *.
    rewrite <- Hw, <- Hh in Hrun2.
    destruct (exec_same_host (plan (width img1) (height img1) c)
                (undo_group_start img1) (undo_group_start img2) Ha Hf)
      as (o & m1 & m2 & gs & fl & E1 & E2 & X1 & X2).
    rewrite E1 in Hrun1. rewrite E2 in Hrun2.
    destruct X1 as (_ & _ & _ & G1 & T1 & _). destruct X2 as (_ & _ & _ & G2 & T2 & _).
    cbn in G1, G2, T1, T2.
    destruct o as [[]|]; injection Hrun1 as <- <-; injection Hrun2 as <- <-;
      (split; [reflexivity|]);
      exists gs, (CallUndoGroupStart :: map CallAdd gs ++ fl ++ [CallUndoGroupEnd]);
      cbn; rewrite G1, G2, T1, T2, <- ?app_assoc; cbn; rewrite <- ?app_assoc;
      repeat split; reflexivity.
  - injection Hrun1 as <- <-. injection Hrun2 as <- <-.
    split; [reflexivity|]. exists [], []. rewrite !app_nil_r. auto.
Qed.

Lemma existing_guides_not_read_witness :
  exists j1 j2,
    run_quick_guides NONINTERACTIVE (Some (image0 900 600)) (mkConfig 3 3 true false) accept
    = ((SUCCESS, GLib_Error), Some j1)
    /\ run_quick_guides NONINTERACTIVE
         (Some (mkImage 900 600 [VGuide 300; HGuide 5] [CallUndoGroupEnd] 0 (fun _ => false)))
         (mkConfig 3 3 true false) accept
       = ((SUCCESS, GLib_Error), Some j2)
    /\ (SUCCESS, GLib_Error) = (SUCCESS, GLib_Error)
    /\ exists gs tr,
         guides j1 = [] ++ gs /\ guides j2 = [VGuide 300; HGuide 5] ++ gs
         /\ trace j1 = [] ++ tr /\ trace j2 = [CallUndoGroupEnd] ++ tr.
Proof.
  eexists. eexists. split; [vm_compute; reflexivity|].
  split; [vm_compute; reflexivity|].
  apply (existing_guides_not_read NONINTERACTIVE (image0 900 600)
           (mkImage 900 600 [VGuide 300; HGuide 5] [CallUndoGroupEnd] 0 (fun _ => false))
           (mkConfig 3 3 true false) accept).
  - reflexivity.
  - reflexivity.
  - reflexivity.
  - reflexivity.
  - vm_compute; reflexivity.
  - vm_compute; reflexivity.
Defined.

(** * Split counts of one or less *)

(** X12: a split count of one or less, zero and negatives included, adds
    no split guide and divides nothing by it: with a host that refuses
    nothing the invocation succeeds and adds only the centre and border
    guides asked for. *)
Theorem no_split_below_two mode img config dialog c :
  show_dialog mode config dialog = Some c ->
  well_formed img ->
  v_split c <= 1 -> h_split c <= 1 ->
  (forall j, (j < 6)%nat -> faults img (attempts img + j)%nat = false) ->
  exists img',
    run_quick_guides mode (Some img) config dialog = ((SUCCESS, GLib_Error), Some img')
    /\ guides img' = guides img
                     ++ (if make_centre c then centre_guides (width img) (height img) else [])
                     ++ (if draw_borders c then border_guides (width img) (height img) else []).
Proof.
  intros Hd [HW HH] Hv Hh Hnf.
  set (pl := (if make_centre c then centre_guides (width img) (height img) else [])
             ++ (if draw_borders c then border_guides (width img) (height img) else [])).
  assert (Ep : plan (width img) (height img) c = map Some pl).
  { unfold plan, split_plan, pl.
    destruct (Z.gtb_spec (v_split c) 1); [lia|].
    destruct (Z.gtb_spec (h_split c) 1); [lia|].
    rewrite !centre_pos_spec by assumption.
    destruct (make_centre c), (draw_borders c); reflexivity. }
  destruct (exec_no_fault pl (undo_group_start img)) as (mid & Ex & (_ & _ & _ & Hg & _)).
  { intros j Hj. apply Hnf. unfold pl in Hj.
    destruct (make_centre c), (draw_borders c); cbn in Hj; lia. }
  exists (undo_group_end mid). split.
  - unfold run_quick_guides. rewrite Hd. unfold run_on_image.
    rewrite add_all_guides_exec, Ep, Ex. reflexivity.
  - exact Hg.
Qed.

Lemma no_split_below_two_witness :
  exists img',
    run_quick_guides NONINTERACTIVE (Some (image0 800 400)) (mkConfig 0 (-3) true true) accept
    = ((SUCCESS, GLib_Error), Some img')
    /\ guides img' = [] ++ centre_guides 800 400 ++ border_guides 800 400.
Proof.
  apply (no_split_below_two NONINTERACTIVE (image0 800 400)
           (mkConfig 0 (-3) true true) accept (mkConfig 0 (-3) true true)).
  - reflexivity.
  - unfold well_formed, G_MAXINT; simpl; lia.
  - simpl; lia.
  - simpl; lia.
  - reflexivity.
Defined.

(** * Registration and the run function agree *)

Local Open Scope string_scope.

(** X13: every property the run function reads is declared at
    registration with the matching kind: on any configuration holding an
    accepted value for each declared argument the four reads succeed, and
    the split counts read are within [1,100]. *)
Theorem declared_arguments_cover_the_reads name config :
  conforms (do_create_procedure name) config ->
  exists c, get_properties config = Some c /\ in_range c.
Proof.
  intros Hc. unfold conforms in Hc. cbn [do_create_procedure arguments add_int_argument
    add_boolean_argument add_argument set_attribution set_documentation add_menu_path
    set_menu_label set_sensitivity_mask set_image_types ImageProcedure_new app] in Hc.
  destruct (Hc _ (or_introl eq_refl)) as (vh & Eh & Ah).
  destruct (Hc _ (or_intror (or_introl eq_refl))) as (vv & Ev & Av).
  destruct (Hc _ (or_intror (or_intror (or_introl eq_refl)))) as (vm & Em & Am).
  destruct (Hc _ (or_intror (or_intror (or_intror (or_introl eq_refl))))) as (vd & Ed & Ad).
  cbn [argument_name] in Eh, Ev, Em, Ed.
  destruct vh as [h|]; [|discriminate]. destruct vv as [v|]; [|discriminate].
  destruct vm as [|mc]; [discriminate|]. destruct vd as [|db]; [discriminate|].
  unfold get_properties. rewrite Eh, Ev, Em, Ed.
  exists (mkConfig h v mc db). split; [reflexivity|].
  cbn [accepts] in Ah, Av. apply andb_true_iff in Ah as [H1 H2], Av as [V1 V2].
  apply Z.leb_le in H1, H2, V1, V2. unfold in_range. cbn. lia.
Qed.

Lemma declared_arguments_cover_the_reads_witness :
  exists c,
    get_properties [("draw-borders", VBool true); ("v-split", VInt 100);
                    ("make-centre", VBool false); ("h-split", VInt 1)]
    = Some c /\ in_range c.
Proof.
  apply (declared_arguments_cover_the_reads "python-fu-ham-quick-guides").
  intros a Ha. cbn in Ha.
  destruct Ha as [<-|[<-|[<-|[<-|[]]]]]; eexists; split; reflexivity.
Defined.

Lemma default_config_conforms name :
  conforms (do_create_procedure name) (default_config (do_create_procedure name)).
Proof.
  intros a Ha. cbn in Ha.
  destruct Ha as [<-|[<-|[<-|[<-|[]]]]]; eexists; split; reflexivity.
Qed.

(** X14: run outside interactive mode on the defaults declared at
    registration, on a well-formed image whose host refuses nothing, the
    procedure succeeds and adds six guides: two vertical and two horizontal
    split guides for thirds, then the centre pair, no border. *)
Theorem registered_defaults_add_thirds_and_centre name mode img dialog :
  mode <> INTERACTIVE ->
  well_formed img ->
  (forall j, (j < 6)%nat -> faults img (attempts img + j)%nat = false) ->
  exists c vs hs img',
    get_properties (default_config (do_create_procedure name)) = Some c
    /\ run_quick_guides mode (Some img) c dialog = ((SUCCESS, GLib_Error), Some img')
    /\ guides img' = guides img ++ map VGuide vs ++ map HGuide hs
                      ++ centre_guides (width img) (height img)
    /\ split_positions (width img) 3 vs /\ length vs = 2%nat
    /\ split_positions (height img) 3 hs /\ length hs = 2%nat.
Proof.
  intros Hm [HW HH] Hnf.
  set (c := mkConfig 3 3 true false).
  assert (Hr : in_range c) by (unfold in_range; cbn; lia).
  destruct (plan_spec _ _ c HW HH Hr) as (vs & hs & Ep & Pv & Ph).
  cbn [make_centre draw_borders c] in Ep. rewrite app_nil_r in Ep.
  cbn [v_split h_split c] in Pv, Ph.
  pose proof (length_split_positions _ _ _ Pv) as Lv.
  pose proof (length_split_positions _ _ _ Ph) as Lh.
  change (Z.to_nat (3 - 1)) with 2%nat in Lv, Lh.
  destruct (exec_no_fault
              (map VGuide vs ++ map HGuide hs ++ centre_guides (width img) (height img))
              (undo_group_start img))
    as (mid & Ex & (_ & _ & _ & Hg & _)).
  { intros j Hj. apply Hnf. rewrite !length_app, !length_map, Lv, Lh in Hj.
    cbn in Hj. lia. }
  exists c, vs, hs, (undo_group_end mid).
  split; [reflexivity|]. split; [|split; [exact Hg|auto]].
  unfold run_quick_guides, show_dialog.
  destruct mode; [congruence| |]; unfold run_on_image;
    rewrite add_all_guides_exec, Ep, Ex; reflexivity.
Qed.

Lemma registered_defaults_add_thirds_and_centre_witness :
  exists c vs hs img',
    get_properties (default_config (do_create_procedure "python-fu-ham-quick-guides"))
    = Some c
    /\ run_quick_guides WITH_LAST_VALS (Some (image0 1000 700)) c dismiss
       = ((SUCCESS, GLib_Error), Some img')
    /\ guides img' = [] ++ map VGuide vs ++ map HGuide hs ++ centre_guides 1000 700
    /\ split_positions 1000 3 vs /\ length vs = 2%nat
    /\ split_positions 700 3 hs /\ length hs = 2%nat.
Proof.
  apply (registered_defaults_add_thirds_and_centre "python-fu-ham-quick-guides"
           WITH_LAST_VALS (image0 1000 700) dismiss).
  - discriminate.
  - unfold well_formed, G_MAXINT; simpl; lia.
  - reflexivity.
Defined.

Local Close Scope string_scope.
